(** * Svalinn MVP policy gate: a shallow embedding of [tools/mvp/svalinn_gate.py]

    The gate decides whether an image digest is admissible from a bundle of
    signed attestations, an admission policy and a trust store.  This file
    embeds the functions of the script that take part in that decision
    ([dsse_pae], [trust_store_keys], [verify_signature], [decode_statement],
    [sanity_check_bundle], [verify_policy]) and proves the properties of the
    specification about them.  The command line around them
    ([require_openssl], [command_verify], [main]) is embedded in the module
    [Cli], and the last part of the file proves further properties of the
    code.

    Modelling conventions.
    - A Python [str] is represented by the string of its UTF-8 bytes, so that
      [s.encode("utf-8")] is the list of bytes of the representation and the
      code point order used by [sorted] is the byte-wise order [String.le].
    - Python exceptions are values of [exn]; a function that may raise returns
      a [result].  The mutable accumulators of [verify_policy] are threaded
      explicitly through the loops.
    - The documents read by [json.load] are records whose fields have the
      types of the data model; a field the script reads with [.get] or with
      [[...]] may be absent.  The two collections that [sanity_check_bundle]
      inspects with [isinstance] may also hold a value that is not a list.
    - What the script obtains from outside itself (base64 and UTF-8 decoding,
      the JSON parser, the [openssl pkeyutl -verify] process, the iteration
      order of a [set]) is a field of the class [Runtime].  The base64
      decoder and the JSON parser return a value or the exception they raise,
      of whatever class of the library; all that is known of it is that it
      is not the [GateError] of the script. *)

From Stdlib Require Import ZArith Lia List Ascii String Strings.Byte.
From Stdlib Require Import DecimalString DecimalNat.
From stdpp Require Import base option list sorting gmap sets strings.

Set Warnings "-clear-no-such-hyp".

(** ** Python values, exceptions and the exception monad *)

Module Py.

(** The values that appear in the [details] of a [GateError]. *)
Inductive pyval : Type :=
| VInt (z : Z)
| VStr (s : string)
| VStrs (l : list string).

(** A dict literal with string keys, in the order it is written. *)
Definition pydict : Type := list (string * pyval).

(** [class GateError(Exception)] and the exceptions of Python and of its
    library that the script can let escape; [OtherException] stands for an
    exception of a class that is not named here. *)
Inductive exn : Type :=
| GateError (message : string) (error_id : string) (details : pydict)
| KeyError (key : string)
| AttributeError
| TypeError
| ValueError
| BinasciiError
| UnicodeDecodeError
| JSONDecodeError
| RecursionError
| CalledProcessError
| OtherException (class_name : string).

Inductive result (A : Type) : Type :=
| Ok (a : A)
| Raise (e : exn).
Arguments Ok {A} a.
Arguments Raise {A} e.

(** A value is not an exception. *)
Definition Ok_not_Raise {A} {a : A} {e : exn} (H : Ok a = Raise e) : False :=
  eq_ind (Ok a) (λ r, match r with Ok _ => True | Raise _ => False end) I _ H.

Global Instance result_ret : MRet result := λ A a, Ok a.

Global Instance result_bind : MBind result := λ A B k m,
  match m with
  | Ok a => k a
  | Raise e => Raise e
  end.

(** [d[key]] on a dict whose entry may be absent. *)
Definition subscript {A} (key : string) (field : option A) : result A :=
  match field with
  | Some a => Ok a
  | None => Raise (KeyError key)
  end.

(** Truthiness of a string or [None] value: [if x:]. *)
Definition truthy (x : option string) : bool :=
  match x with
  | Some (String _ _) => true
  | _ => false
  end.

(** [str(n)] for a non-negative [int]. *)
Definition str_of_nat (n : nat) : string :=
  NilZero.string_of_uint (Nat.to_uint n).

(** [sorted(s)] for a set of strings. *)
Definition sorted (s : gset string) : list string :=
  merge_sort String.le (elements s).

(** [sorted(s)] for a set whose members are strings or [None]: two members of
    different types cannot be compared. *)
Definition sorted_opt (s : gset (option string)) : result (list (option string)) :=
  if decide (None ∈ s) then
    if decide (size s = 1%nat) then Ok [None] else Raise TypeError
  else Ok (Some <$> merge_sort String.le (omap id (elements s))).

Definition is_gate_error (e : exn) : bool :=
  match e with
  | GateError _ _ _ => true
  | _ => false
  end.

Definition message_of (e : exn) : option string :=
  match e with
  | GateError m _ _ => Some m
  | _ => None
  end.

Definition error_id_of (e : exn) : option string :=
  match e with
  | GateError _ i _ => Some i
  | _ => None
  end.

Definition details_of (e : exn) : pydict :=
  match e with
  | GateError _ _ d => d
  | _ => []
  end.

End Py.
Export Py.

(** ** The message authenticator *)

Abbreviation bytes := (list byte).

Global Instance byte_eq_dec : EqDecision byte := Byte.byte_eq_dec.

Definition encode (s : string) : bytes := list_byte_of_string s.

Definition PAYLOAD_TYPE : string := "application/vnd.in-toto+json".

(** The inner function [enc] of [dsse_pae]. *)
Definition enc (part : bytes) : bytes :=
  encode (str_of_nat (length part)) ++ encode " " ++ part.

Definition dsse_pae (payload_type payload_b64 : string) : bytes :=
  let pt := encode payload_type in
  let pb := encode payload_b64 in
  encode "DSSEv1 " ++ enc pt ++ encode " " ++ enc pb.

(** ** Data model

    The JSON documents the gate reads.  [None] stands for an absent key. *)

Record Signature : Type := mkSignature {
  sig_keyid : option string;
  sig_sig : option string
}.

Record Attestation : Type := mkAttestation {
  att_payload : option string;
  att_signatures : option (list Signature)
}.

Record Digest : Type := mkDigest {
  digest_sha256 : option string
}.

Record Subject : Type := mkSubject {
  subject_digest : option Digest
}.

(** The statement carried, base64 encoded, by an attestation. *)
Record Statement : Type := mkStatement {
  st_predicateType : option string;
  st_subject : option (list Subject)
}.

Record LogEntry : Type := mkLogEntry {
  entry_logId : option string
}.

(** A collection of the bundle: absent, a JSON value that is not a list, or
    a list. *)
Inductive field (A : Type) : Type :=
| Missing
| NotAList
| Items (l : list A).
Arguments Missing {A}.
Arguments NotAList {A}.
Arguments Items {A} l.

Record Bundle : Type := mkBundle {
  bundle_mediaType : option string;
  bundle_version : option string;
  bundle_attestations : field Attestation;
  bundle_logEntries : field LogEntry
}.

Record Policy : Type := mkPolicy {
  policy_requiredPredicates : option (list string);
  policy_allowedSigners : option (list string);
  policy_logQuorum : option Z
}.

Record KeyRecord : Type := mkKeyRecord {
  key_id : option string;
  key_publicKey : option string
}.

(** [keys] maps a role to its key records, [logs] a log identifier to the
    description of its operator; both are dicts in insertion order. *)
Record TrustStore : Type := mkTrustStore {
  ts_keys : option (list (string * list KeyRecord));
  ts_logs : option (list (string * string))
}.

(** The dict returned by [verify_policy]. *)
Record Report : Type := mkReport {
  predicates : list (option string);
  signers : list string;
  logIds : list string
}.

(** The accumulators of the attestation loop of [verify_policy]. *)
Record Acc : Type := mkAcc {
  seen_predicates : gset (option string);
  seen_signers : gset string;
  missing_subjects : list string
}.

(** ** What the script calls outside itself *)

(** The value [json.loads] returns for the payload of an attestation. *)
Inductive json_value : Type :=
| NotAnObject
| Object (statement : Statement).

Class Runtime : Type := {
  (** [base64.b64decode] on a [str]: the bytes, or the exception it raises
      ([ValueError] for text that is not ASCII, [binascii.Error] for text
      that is not base64). *)
  b64decode : string → result bytes;
  (** [bytes.decode("utf-8")]; [None] when it raises [UnicodeDecodeError]. *)
  decode_utf8 : bytes → option string;
  (** [json.loads] on a [str]: the value, or the exception it raises
      ([json.JSONDecodeError] for text that is not JSON, [ValueError] for an
      integer literal beyond the conversion limit, [RecursionError] for
      nesting beyond the recursion limit). *)
  json_loads : string → result json_value;
  (** What [verify_signature] does once the key and the signature are
      decoded: it writes them to [pub.der] and [sig.bin] of a temporary
      directory and runs [openssl pkeyutl -verify -pubin -inkey pub.der
      -inform DER -rawin -sigfile sig.bin] fed with the message.  [Ok true]
      when the process exits with status 0, [Ok false] when it exits with
      another status, the exception when a file cannot be written or the
      process cannot be started. *)
  openssl_verify : bytes → bytes → bytes → result bool;
  (** The order in which a [for] loop visits a [set] of strings. *)
  set_iter : gset string → list string;
  set_iter_perm : ∀ s, set_iter s ≡ₚ elements s;
  (** The library raises exceptions of its own classes, not the [GateError]
      that the script defines. *)
  b64decode_raises : ∀ s e, b64decode s = Raise e → is_gate_error e = false;
  json_loads_raises : ∀ s e, json_loads s = Raise e → is_gate_error e = false;
  openssl_verify_raises : ∀ pub_der signature message e,
    openssl_verify pub_der signature message = Raise e → is_gate_error e = false
}.

(** ** The gate *)

Definition ERR_POLICY_DENIED : string := "ERR_POLICY_DENIED".

Definition BUNDLE_MEDIA_TYPE : string :=
  "application/vnd.verified-container.bundle+json".

Definition BUNDLE_VERSION : string := "0.1.0".

Definition add_key (keys : gmap string string) (entry : KeyRecord)
    : gmap string string :=
  match key_id entry, key_publicKey entry with
  | Some k, Some pk => if truthy (Some k) then <[k := pk]> keys else keys
  | _, _ => keys
  end.

Definition trust_store_keys (trust_store : TrustStore) : gmap string string :=
  foldl (λ keys role_keys, foldl add_key keys role_keys.2)
        ∅ (default [] (ts_keys trust_store)).

(** [log_id in trust_store.get("logs", {})] *)
Definition recognized_log (trust_store : TrustStore) (log_id : string) : bool :=
  bool_decide (log_id ∈ (default [] (ts_logs trust_store)).*1).

(** [isinstance(x, list) and x] *)
Definition nonempty_list {A} (x : field A) : bool :=
  match x with
  | Items (_ :: _) => true
  | _ => false
  end.

Definition sanity_check_bundle (bundle : Bundle) : result unit :=
  if decide (bundle_mediaType bundle ≠ Some BUNDLE_MEDIA_TYPE) then
    Raise (GateError "invalid mediaType" ERR_POLICY_DENIED
             [("field", VStr "mediaType")])
  else if decide (bundle_version bundle ≠ Some BUNDLE_VERSION) then
    Raise (GateError "unsupported bundle version" ERR_POLICY_DENIED
             [("field", VStr "version")])
  else if negb (nonempty_list (bundle_attestations bundle)) then
    Raise (GateError "attestations required" ERR_POLICY_DENIED
             [("field", VStr "attestations")])
  else if negb (nonempty_list (bundle_logEntries bundle)) then
    Raise (GateError "logEntries required" ERR_POLICY_DENIED
             [("field", VStr "logEntries")])
  else Ok ().

(** [bundle.get(name, [])] as the iterable of a loop. *)
Definition field_iter {A} (x : field A) : result (list A) :=
  match x with
  | Missing => Ok []
  | NotAList => Raise TypeError
  | Items l => Ok l
  end.

(** [f"sha256:{digest}" != image_digest], guarded by [digest and ...]. *)
Definition digest_mismatch (image_digest : string) (subject : Subject)
    : option string :=
  match subject_digest subject with
  | None => None
  | Some d =>
    match digest_sha256 d with
    | Some dg =>
      if truthy (Some dg) && negb (bool_decide ("sha256:" +:+ dg = image_digest))
      then Some dg else None
    | None => None
    end
  end.

Definition check_subjects (image_digest : string) (subjects : list Subject)
    (missing_subjects : list string) : list string :=
  foldl (λ missing subject,
           match digest_mismatch image_digest subject with
           | Some dg => missing ++ [dg]
           | None => missing
           end) missing_subjects subjects.

(** [key_id in allowed_signers and key_id in keys], yielding [keys[key_id]]. *)
Definition candidate_key (allowed_signers : gset string)
    (keys : gmap string string) (key_id : option string) : option string :=
  match key_id with
  | Some k => if decide (k ∈ allowed_signers) then keys !! k else None
  | None => None
  end.

Definition record_signer (key_id : option string) (seen_signers : gset string)
    : gset string :=
  match key_id with
  | Some k => if truthy key_id then seen_signers ∪ {[ k ]} else seen_signers
  | None => seen_signers
  end.

Section Gate.
Context `{RT : Runtime}.

(** [run_openssl] with [check=True] on the [pkeyutl -verify] command: a
    status other than 0 raises [CalledProcessError]. *)
Definition run_openssl_verify (pub_der signature message : bytes) : result unit :=
  exit_zero ← openssl_verify pub_der signature message;
  if exit_zero : bool then Ok () else Raise CalledProcessError.

Definition verify_signature (pub_key_b64 payload_b64 signature_b64 : string)
    : result unit :=
  let payload_bytes := dsse_pae PAYLOAD_TYPE payload_b64 in
  pub_der ← b64decode pub_key_b64;
  signature ← b64decode signature_b64;
  run_openssl_verify pub_der signature payload_bytes.

Definition decode_statement (attestation : Attestation) : result json_value :=
  payload_b64 ← subscript "payload" (att_payload attestation);
  raw ← b64decode payload_b64;
  payload ← match decode_utf8 raw with
            | Some t => Ok t
            | None => Raise UnicodeDecodeError
            end;
  json_loads payload.

(** [statement.get(...)]: only a dict has the method. *)
Definition as_object (v : json_value) : result Statement :=
  match v with
  | Object st => Ok st
  | NotAnObject => Raise AttributeError
  end.

(** The loop over [attestation.get("signatures", [])]: the result is the
    final [valid_signature] flag and [seen_signers]. *)
Fixpoint scan_signatures (allowed_signers : gset string)
    (keys : gmap string string) (attestation : Attestation)
    (sigs : list Signature) (seen_signers : gset string)
    : result (bool * gset string) :=
  match sigs with
  | [] => Ok (false, seen_signers)
  | signature :: rest =>
    let key_id := sig_keyid signature in
    let seen_signers := record_signer key_id seen_signers in
    match candidate_key allowed_signers keys key_id with
    | Some pub_key =>
      payload_b64 ← subscript "payload" (att_payload attestation);
      signature_b64 ← subscript "sig" (sig_sig signature);
      verify_signature pub_key payload_b64 signature_b64;;
      Ok (true, seen_signers)
    | None => scan_signatures allowed_signers keys attestation rest seen_signers
    end
  end.

(** One iteration of the loop over the attestations. *)
Definition process_attestation (allowed_signers : gset string)
    (keys : gmap string string) (image_digest : string)
    (acc : Acc) (attestation : Attestation) : result Acc :=
  v ← decode_statement attestation;
  statement ← as_object v;
  let seen_predicates := seen_predicates acc ∪ {[ st_predicateType statement ]} in
  let missing_subjects :=
    check_subjects image_digest (default [] (st_subject statement))
                   (missing_subjects acc) in
  '(valid_signature, seen_signers) ←
    scan_signatures allowed_signers keys attestation
                    (default [] (att_signatures attestation)) (seen_signers acc);
  if negb valid_signature then
    Raise (GateError "no valid signature for allowed signer" ERR_POLICY_DENIED
             [("allowed", VStrs (sorted allowed_signers));
              ("seen", VStrs (sorted seen_signers))])
  else Ok (mkAcc seen_predicates seen_signers missing_subjects).

Fixpoint process_attestations (allowed_signers : gset string)
    (keys : gmap string string) (image_digest : string)
    (attestations : list Attestation) (acc : Acc) : result Acc :=
  match attestations with
  | [] => Ok acc
  | attestation :: rest =>
    acc' ← process_attestation allowed_signers keys image_digest acc attestation;
    process_attestations allowed_signers keys image_digest rest acc'
  end.

(** The loop [for log_id in log_ids] over the ids in iteration order. *)
Fixpoint check_logs (trust_store : TrustStore) (log_ids : list string)
    : result unit :=
  match log_ids with
  | [] => Ok ()
  | log_id :: rest =>
    if negb (recognized_log trust_store log_id) then
      Raise (GateError "unknown log operator" ERR_POLICY_DENIED
               [("logId", VStr log_id)])
    else check_logs trust_store rest
  end.

(** [required_predicates - seen_predicates] *)
Definition missing_predicates (required_predicates : gset string)
    (seen : gset (option string)) : gset string :=
  filter (λ p, Some p ∉ seen) required_predicates.

(** Lines 120 to 133 of [verify_policy]: the quorum and the log operators.
    The result is the set [log_ids]. *)
Definition check_log_entries (bundle : Bundle) (trust_store : TrustStore)
    (log_quorum : Z) : result (gset string) :=
  entries ← field_iter (bundle_logEntries bundle);
  ids ← mapM (λ entry, subscript "logId" (entry_logId entry)) entries;
  let log_ids : gset string := list_to_set ids in
  if (Z.of_nat (size log_ids) <? log_quorum)%Z then
    Raise (GateError "log quorum not satisfied" ERR_POLICY_DENIED
             [("required", VInt log_quorum);
              ("observed", VInt (Z.of_nat (size log_ids)))])
  else
  check_logs trust_store (set_iter log_ids);;
  Ok log_ids.

(** Lines 162 to 181 of [verify_policy]: the checks after the loop and the
    report. *)
Definition final_checks (required_predicates : gset string)
    (image_digest : string) (log_ids : gset string) (acc : Acc)
    : result Report :=
  if negb (bool_decide (missing_subjects acc = [])) then
    Raise (GateError "subject digest mismatch" ERR_POLICY_DENIED
             [("expected", VStr image_digest);
              ("observed", VStrs (missing_subjects acc))])
  else
  let missing := missing_predicates required_predicates (seen_predicates acc) in
  if negb (bool_decide (missing = ∅)) then
    Raise (GateError "missing required predicates" ERR_POLICY_DENIED
             [("missing", VStrs (sorted missing))])
  else
  predicates ← sorted_opt (seen_predicates acc);
  Ok (mkReport predicates (sorted (seen_signers acc)) (sorted log_ids)).

Definition verify_policy (bundle : Bundle) (policy : Policy)
    (trust_store : TrustStore) (image_digest : string) : result Report :=
  required ← subscript "requiredPredicates" (policy_requiredPredicates policy);
  let required_predicates : gset string := list_to_set required in
  allowed ← subscript "allowedSigners" (policy_allowedSigners policy);
  let allowed_signers : gset string := list_to_set allowed in
  let log_quorum := default 1%Z (policy_logQuorum policy) in
  sanity_check_bundle bundle;;
  let keys := trust_store_keys trust_store in
  log_ids ← check_log_entries bundle trust_store log_quorum;
  attestations ← field_iter (bundle_attestations bundle);
  acc ← process_attestations allowed_signers keys image_digest attestations
          (mkAcc ∅ ∅ []);
  final_checks required_predicates image_digest log_ids acc.

End Gate.

(** ** Vocabulary of the properties

    The notions the specification uses to describe an evaluation, defined on
    the input documents. *)

(** The value of a string of decimal digits. *)
Definition digit_value (c : ascii) : option nat :=
  let n := nat_of_ascii c in
  if (48 <=? n)%nat && (n <=? 57)%nat then Some (n - 48)%nat else None.

Fixpoint decimal_value_acc (s : string) (acc : nat) : option nat :=
  match s with
  | EmptyString => Some acc
  | String c s' => d ← digit_value c; decimal_value_acc s' (10 * acc + d)%nat
  end.

Definition decimal_value (s : string) : option nat :=
  match s with
  | EmptyString => None
  | _ => decimal_value_acc s 0
  end.

(** [s] is the decimal numeral of [n]: digits only, of value [n], without a
    leading zero. *)
Definition decimal_numeral (s : string) (n : nat) : Prop :=
  decimal_value s = Some n ∧
  (s = "0" ∨ ∃ c r, s = String c r ∧ c ≠ "0"%char).

(** [TAG len1 SP field1 SP len2 SP field2], the records written as text. *)
Definition pae_layout (len1 field1 len2 field2 : string) : string :=
  "DSSEv1" +:+ " " +:+ len1 +:+ " " +:+ field1 +:+ " " +:+ len2 +:+ " " +:+ field2.

(** A collection of the bundle as a list, when it is one. *)
Definition items {A} (x : field A) : list A :=
  match x with
  | Items l => l
  | _ => []
  end.

Definition log_ids_of (bundle : Bundle) : list string :=
  omap entry_logId (items (bundle_logEntries bundle)).

(** The distinct [logId] values across the log entries. *)
Definition distinct_log_ids (bundle : Bundle) : list string :=
  remove_dups (log_ids_of bundle).

Definition signatures_of (attestation : Attestation) : list Signature :=
  default [] (att_signatures attestation).

(** A signature whose [keyid] is in the allowed signers and resolvable in the
    trust store index. *)
Definition allowed_and_resolvable (allowed_signers : gset string)
    (keys : gmap string string) (signature : Signature) : Prop :=
  match sig_keyid signature with
  | Some k => k ∈ allowed_signers ∧ is_Some (keys !! k)
  | None => False
  end.

Global Instance allowed_and_resolvable_dec allowed_signers keys signature :
  Decision (allowed_and_resolvable allowed_signers keys signature).
Proof. unfold allowed_and_resolvable. destruct (sig_keyid signature); apply _. Defined.

(** The first signature of a list from an allowed, resolvable signer, with
    its position. *)
Definition first_match (allowed_signers : gset string)
    (keys : gmap string string) (sigs : list Signature)
    : option (nat * Signature) :=
  list_find (allowed_and_resolvable allowed_signers keys) sigs.

(** The signatures up to and including the first match; all of them when
    there is none. *)
Definition scanned (allowed_signers : gset string)
    (keys : gmap string string) (sigs : list Signature) : list Signature :=
  match first_match allowed_signers keys sigs with
  | Some (i, _) => take (S i) sigs
  | None => sigs
  end.

(** The non-empty key ids carried by a list of signatures. *)
Definition keyids (sigs : list Signature) : list string :=
  filter (λ k, k ≠ "") (omap sig_keyid sigs).

(** The non-empty sha256 digests carried by the subjects of a statement, and
    those whose [sha256:<digest>] form differs from the image digest. *)
Definition carried_digests (statement : Statement) : list string :=
  filter (λ dg, dg ≠ "")
    (omap (λ subject, subject_digest subject ≫= digest_sha256)
          (default [] (st_subject statement))).

Definition mismatched (image_digest : string) (statement : Statement)
    : list string :=
  filter (λ dg, "sha256:" +:+ dg ≠ image_digest) (carried_digests statement).

(** The sets built from the policy at the start of [verify_policy]. *)
Definition allowed_signers_of (policy : Policy) : gset string :=
  list_to_set (default [] (policy_allowedSigners policy)).

Definition required_predicates_of (policy : Policy) : list string :=
  default [] (policy_requiredPredicates policy).

Definition attestations_of (bundle : Bundle) : list Attestation :=
  items (bundle_attestations bundle).

(** What the loop over the attestations has accumulated when every
    attestation was signer-valid: the predicate types of the statements, the
    non-empty key ids of the scanned signatures, the mismatched digests in
    the order of the bundle. *)
Definition observed_predicates (statements : list Statement)
    : gset (option string) :=
  list_to_set (st_predicateType <$> statements).

Definition observed_signers (allowed_signers : gset string)
    (keys : gmap string string) (attestations : list Attestation)
    : gset string :=
  list_to_set
    (attestations ≫= λ a, keyids (scanned allowed_signers keys (signatures_of a))).

Definition observed_mismatches (image_digest : string)
    (statements : list Statement) : list string :=
  statements ≫= mismatched image_digest.

Section Vocabulary.
Context `{RT : Runtime}.

(** The statement of an attestation, when its payload decodes to an object. *)
Definition statement_of (attestation : Attestation) : option Statement :=
  match decode_statement attestation with
  | Ok (Object statement) => Some statement
  | _ => None
  end.

(** The signature check of an attestation succeeds on a signature. *)
Definition signature_verifies (keys : gmap string string)
    (attestation : Attestation) (signature : Signature) : Prop :=
  match sig_keyid signature ≫= (keys !!.), att_payload attestation,
        sig_sig signature with
  | Some pub_key_b64, Some payload_b64, Some signature_b64 =>
    match b64decode pub_key_b64, b64decode signature_b64 with
    | Ok pub_der, Ok signature_bytes =>
      openssl_verify pub_der signature_bytes
                     (dsse_pae PAYLOAD_TYPE payload_b64) = Ok true
    | _, _ => False
    end
  | _, _, _ => False
  end.

(** An attestation is signer-valid when its first signature from an allowed,
    resolvable signer verifies. *)
Definition signer_valid (allowed_signers : gset string)
    (keys : gmap string string) (attestation : Attestation) : Prop :=
  match first_match allowed_signers keys (signatures_of attestation) with
  | Some (_, signature) => signature_verifies keys attestation signature
  | None => False
  end.

(** An attestation passes signer validation when its payload decodes to a
    statement and it is signer-valid. *)
Definition passes_signer_validation (policy : Policy) (trust_store : TrustStore)
    (attestation : Attestation) : Prop :=
  is_Some (statement_of attestation) ∧
  signer_valid (allowed_signers_of policy) (trust_store_keys trust_store)
               attestation.

Definition statements_of (attestations : list Attestation) : list Statement :=
  omap statement_of attestations.

(** The evaluation gets through the structural and log checks. *)
Definition passes_log_checks (bundle : Bundle) (policy : Policy)
    (trust_store : TrustStore) : Prop :=
  is_Some (policy_requiredPredicates policy) ∧
  is_Some (policy_allowedSigners policy) ∧
  sanity_check_bundle bundle = Ok () ∧
  Forall (λ entry, is_Some (entry_logId entry)) (items (bundle_logEntries bundle)) ∧
  (default 1 (policy_logQuorum policy) ≤ Z.of_nat (length (distinct_log_ids bundle)))%Z ∧
  Forall (λ log_id, recognized_log trust_store log_id = true) (log_ids_of bundle).

(** The evaluation gets to the attestation [a], which follows [pre] and
    precedes [post] in the bundle: the log checks pass and every attestation
    of [pre] passes signer validation. *)
Definition reaches (bundle : Bundle) (policy : Policy) (trust_store : TrustStore)
    (pre : list Attestation) (a : Attestation) (post : list Attestation) : Prop :=
  passes_log_checks bundle policy trust_store ∧
  bundle_attestations bundle = Items (pre ++ a :: post) ∧
  Forall (passes_signer_validation policy trust_store) pre.

End Vocabulary.

(** ** A runtime for the examples

    A strict base64 decoder, a UTF-8 decoder for ASCII text, a JSON reader
    that knows the statements of the examples, and a stand-in for the
    signature check that accepts a fixed list of (key, signature, message)
    triples.  On the inputs of the examples they return what the Python
    library returns. *)

Module Demo.

Definition b64_value (c : ascii) : option N :=
  let n := N_of_ascii c in
  if (65 <=? n)%N && (n <=? 90)%N then Some (n - 65)%N
  else if (97 <=? n)%N && (n <=? 122)%N then Some (n - 71)%N
  else if (48 <=? n)%N && (n <=? 57)%N then Some (n + 4)%N
  else if (n =? 43)%N then Some 62%N
  else if (n =? 47)%N then Some 63%N
  else None.

Definition byte_of (n : N) : list byte :=
  match Byte.of_N (n mod 256) with
  | Some b => [b]
  | None => []
  end.

(** The bytes of one group of four characters; [None] stands for the
    padding character. *)
Definition b64_group (a b : N) (c d : option N) : list byte :=
  let w := (a * 262144 + b * 4096 + default 0 c * 64 + default 0 d)%N in
  match c, d with
  | Some _, Some _ => byte_of (w / 65536) ++ byte_of (w / 256) ++ byte_of w
  | Some _, None => byte_of (w / 65536) ++ byte_of (w / 256)
  | None, _ => byte_of (w / 65536)
  end.

Definition pad : ascii := "="%char.

Fixpoint b64_groups (l : list ascii) : option bytes :=
  match l with
  | [] => Some []
  | [c1; c2; c3; c4] =>
    a ← b64_value c1; b ← b64_value c2;
    if decide (c3 = pad ∧ c4 = pad) then Some (b64_group a b None None)
    else c ← b64_value c3;
         if decide (c4 = pad) then Some (b64_group a b (Some c) None)
         else d ← b64_value c4; Some (b64_group a b (Some c) (Some d))
  | c1 :: c2 :: c3 :: c4 :: rest =>
    a ← b64_value c1; b ← b64_value c2; c ← b64_value c3; d ← b64_value c4;
    tail ← b64_groups rest;
    Some (b64_group a b (Some c) (Some d) ++ tail)
  | _ => None
  end.

(** [base64.b64decode] encodes a [str] as ASCII before it looks for base64. *)
Definition is_ascii (s : string) : bool :=
  forallb (λ c, (N_of_ascii c <? 128)%N) (list_ascii_of_string s).

Definition demo_b64decode (s : string) : result bytes :=
  if is_ascii s then
    match b64_groups (list_ascii_of_string s) with
    | Some b => Ok b
    | None => Raise BinasciiError
    end
  else Raise ValueError.

Definition demo_decode_utf8 (b : bytes) : option string :=
  if forallb (λ x, (Byte.to_N x <? 128)%N) b
  then Some (string_of_list_byte b) else None.

Definition dq : string := String (ascii_of_nat 34) "".

Definition quoted (s : string) : string := dq +:+ s +:+ dq.

(** The compact JSON text of a statement whose subjects all carry a digest. *)
Definition subject_json (subject : Subject) : string :=
  "{" +:+ quoted "digest" +:+ ":{" +:+ quoted "sha256" +:+ ":" +:+
  quoted (default "" (subject_digest subject ≫= digest_sha256)) +:+ "}}".

Fixpoint comma_sep (l : list string) : string :=
  match l with
  | [] => ""
  | [x] => x
  | x :: l' => x +:+ "," +:+ comma_sep l'
  end.

Definition statement_json (st : Statement) : string :=
  "{" +:+
  match st_predicateType st with
  | Some p => quoted "predicateType" +:+ ":" +:+ quoted p +:+ ","
  | None => ""
  end +:+
  quoted "subject" +:+ ":[" +:+
  comma_sep (subject_json <$> default [] (st_subject st)) +:+ "]}".

Definition subject_of (dg : string) : Subject :=
  mkSubject (Some (mkDigest (Some dg))).

Definition st_provenance : Statement :=
  mkStatement (Some "provenance") (Some [subject_of "aa11"]).
Definition st_sbom : Statement :=
  mkStatement (Some "sbom") (Some [subject_of "bb22"]).
Definition st_untyped : Statement :=
  mkStatement None (Some [subject_of ""]).

Definition st_tampered : Statement :=
  mkStatement (Some "provenance") (Some [subject_of "aa12"]).

Definition known_statements : list Statement :=
  [st_provenance; st_sbom; st_untyped; st_tampered].

Definition demo_json_loads (text : string) : result json_value :=
  if decide (text = "[]") then Ok NotAnObject
  else match head (filter (λ st, statement_json st = text) known_statements) with
       | Some st => Ok (Object st)
       | None => Raise JSONDecodeError
       end.

(** base64 of the JSON text of [st_provenance], [st_sbom], [st_untyped],
    of the text [[]], of a truncated object, of a text that is not base64
    and of two bytes that are not UTF-8; the last text is the letter e with
    an acute accent, which is not ASCII. *)
Definition payload_provenance : string :=
  "eyJwcmVkaWNhdGVUeXBlIjoicHJvdmVuYW5jZSIsInN1YmplY3QiOlt7ImRpZ2VzdCI6eyJzaGEyNTYiOiJhYTExIn19XX0=".
Definition payload_sbom : string :=
  "eyJwcmVkaWNhdGVUeXBlIjoic2JvbSIsInN1YmplY3QiOlt7ImRpZ2VzdCI6eyJzaGEyNTYiOiJiYjIyIn19XX0=".
Definition payload_untyped : string :=
  "eyJzdWJqZWN0IjpbeyJkaWdlc3QiOnsic2hhMjU2IjoiIn19XX0=".
(** The provenance payload with its last digit changed after signing: one
    byte of the JSON text, one character of the base64 text. *)
Definition payload_tampered : string :=
  "eyJwcmVkaWNhdGVUeXBlIjoicHJvdmVuYW5jZSIsInN1YmplY3QiOlt7ImRpZ2VzdCI6eyJzaGEyNTYiOiJhYTEyIn19XX0=".
Definition payload_array : string := "W10=".
Definition payload_truncated : string := "eyJwcmVkaWNhdGVUeXBlIjo=".
Definition payload_not_base64 : string := "abc".
Definition payload_not_utf8 : string := "//4=".
Definition text_not_ascii : string :=
  String (ascii_of_nat 195) (String (ascii_of_nat 169) "").

(** base64 of [pubkey-k1], [pubkey-k2], [not-a-key], [sig-1], [sig-2] and
    [sig-bad]. *)
Definition pub_k1 : string := "cHVia2V5LWsx".
Definition pub_k2 : string := "cHVia2V5LWsy".
Definition pub_malformed : string := "bm90LWEta2V5".
Definition sig_1 : string := "c2lnLTE=".
Definition sig_2 : string := "c2lnLTI=".
Definition sig_bad : string := "c2lnLWJhZA==".

(** The signatures the stand-in accepts: [sig-1] by [k1] and [sig-2] by [k2],
    each over the provenance payload and over the sbom payload. *)
Definition accepted : list (bytes * bytes * bytes) :=
  [ (encode "pubkey-k1", encode "sig-1", dsse_pae PAYLOAD_TYPE payload_provenance);
    (encode "pubkey-k1", encode "sig-1", dsse_pae PAYLOAD_TYPE payload_sbom);
    (encode "pubkey-k2", encode "sig-2", dsse_pae PAYLOAD_TYPE payload_provenance);
    (encode "pubkey-k2", encode "sig-2", dsse_pae PAYLOAD_TYPE payload_sbom) ].

Definition demo_openssl_verify (pub_der signature message : bytes) : result bool :=
  Ok (bool_decide ((pub_der, signature, message) ∈ accepted)).

Definition demo_b64decode_raises (s : string) (e : exn) :
  demo_b64decode s = Raise e → is_gate_error e = false.
Proof.
  unfold demo_b64decode. destruct (is_ascii s); [|by intros [= <-]].
  destruct (b64_groups _); [done|by intros [= <-]].
Qed.

Definition demo_json_loads_raises (text : string) (e : exn) :
  demo_json_loads text = Raise e → is_gate_error e = false.
Proof.
  unfold demo_json_loads. case_decide; [done|].
  destruct (head _); [done|by intros [= <-]].
Qed.

Definition demo_runtime : Runtime := {|
  b64decode := demo_b64decode;
  decode_utf8 := demo_decode_utf8;
  json_loads := demo_json_loads;
  openssl_verify := demo_openssl_verify;
  set_iter := elements;
  set_iter_perm := λ s, Permutation_refl (elements s);
  b64decode_raises := demo_b64decode_raises;
  json_loads_raises := demo_json_loads_raises;
  openssl_verify_raises := λ _ _ _ _ H, match Ok_not_Raise H with end
|}.

Definition store : TrustStore :=
  mkTrustStore
    (Some [("release", [mkKeyRecord (Some "k1") (Some pub_k1);
                        mkKeyRecord (Some "k2") (Some pub_k2)]);
           ("staging", [mkKeyRecord (Some "k3") (Some pub_malformed);
                        mkKeyRecord (Some "k4") (Some "abc")]);
           ("broken", [mkKeyRecord (Some "k9") None;
                       mkKeyRecord None (Some pub_k1)])])
    (Some [("log-a", "operator a"); ("log-b", "operator b")]).

Definition policy_k1 : Policy :=
  mkPolicy (Some ["provenance"]) (Some ["k1"]) (Some 1%Z).

Definition signed_by (kid sg : string) : Signature :=
  mkSignature (Some kid) (Some sg).

Definition att (payload : string) (sigs : list Signature) : Attestation :=
  mkAttestation (Some payload) (Some sigs).

Definition bundle_of (atts : list Attestation) (log_ids : list string) : Bundle :=
  mkBundle (Some BUNDLE_MEDIA_TYPE) (Some BUNDLE_VERSION)
           (Items atts) (Items (mkLogEntry ∘ Some <$> log_ids)).

(** The admission scenario of the specification. *)
Definition bundle_ok : Bundle :=
  bundle_of [att payload_provenance [signed_by "k1" sig_1]] ["log-a"].

Definition image_ok : string := "sha256:aa11".

Definition image_other : string := "sha256:ffff".

Definition policy_quorum2 : Policy :=
  mkPolicy (Some ["provenance"]) (Some ["k1"]) (Some 2%Z).

Definition policy_k1k2 : Policy :=
  mkPolicy (Some ["provenance"]) (Some ["k1"; "k2"]) None.

Definition policy_many : Policy :=
  mkPolicy (Some ["vuln-scan"; "provenance"; "sbom"]) (Some ["k1"]) None.

Definition policy_staging : Policy :=
  mkPolicy (Some ["provenance"]) (Some ["k3"; "k4"]) None.

(** One attestation signed by [kid] with [sg], one recognized log. *)
Definition bundle_signed (payload kid sg : string) : Bundle :=
  bundle_of [att payload [signed_by kid sg]] ["log-a"].

(** Two entries of the same log; the signature of the attestation is wrong. *)
Definition bundle_one_log : Bundle :=
  bundle_of [att payload_provenance [signed_by "k1" sig_bad]] ["log-a"; "log-a"].

(** A log the trust store does not know. *)
Definition bundle_unknown_log : Bundle :=
  bundle_of [att payload_provenance [signed_by "k1" sig_1]] ["log-a"; "log-x"].

(** Signatures of a signer that is not allowed and of one without key id
    before the valid one, a further valid signature after it. *)
Definition bundle_signers : Bundle :=
  bundle_of [att payload_provenance
               [signed_by "zz" sig_bad; signed_by "" sig_1;
                signed_by "k1" sig_1; signed_by "k2" sig_2]] ["log-a"].

(** A signature of a signer that is not allowed, then a wrong one of [k1]. *)
Definition bundle_none_valid : Bundle :=
  bundle_of [att payload_provenance [signed_by "zz" sig_1; signed_by "k1" sig_bad]]
            ["log-a"].

(** A provenance attestation signed by [k1] and an sbom attestation signed
    by [k2], whose subject is another image. *)
Definition bundle_two : Bundle :=
  bundle_of [att payload_provenance [signed_by "k1" sig_1];
             att payload_sbom [signed_by "k2" sig_2]] ["log-a"; "log-b"].

(** A wrong signature of [k1] followed by a right one of [k2]. *)
Definition bundle_second_valid : Bundle :=
  bundle_of [att payload_provenance [signed_by "k1" sig_bad; signed_by "k2" sig_2]]
            ["log-a"].

End Demo.

(** ** The command line

    [command_verify] and [main].  What they ask of the host (whether
    [openssl version] runs, what [load_json] reads at a path) is a field of
    the class [Host]; what [argparse] makes of the command line is a
    [parse_outcome]; what is written and how the process ends is a
    [Process]. *)

Module Cli.

(** The namespace built by [build_parser] for the [verify] command. *)
Record Args : Type := mkArgs {
  args_bundle : string;
  args_trust_store : string;
  args_policy : string;
  args_image_digest : string;
  args_json : bool
}.

(** What [parser.parse_args()] does with the command line.  It returns the
    namespace of the [verify] command, the only one of the parser and a
    required one; or it ends the program itself: on [-h] or [--help] it
    writes the help to the standard output and exits with status 0, on a
    command line it rejects it writes the usage and the error message to the
    standard error and exits with status 2. *)
Inductive parse_outcome : Type :=
| Parsed (args : Args)
| HelpRequested (help : string)
| UsageError (usage message : string).

Class Host : Type := {
  (** [subprocess.run(["openssl", "version"], check=True)] returns. *)
  openssl_found : bool;
  (** [load_json] on the path of each document, a record of the data model;
      [None] when it raises. *)
  load_bundle : string → option Bundle;
  load_trust_store : string → option TrustStore;
  load_policy : string → option Policy
}.

(** The argument of [json.dumps(..., indent=2)]. *)
Inductive document : Type :=
| OkDocument (report : Report)
| ErrorDocument (error_id message : string) (details : pydict).

(** What leaves a function of the command line instead of a value. *)
Inductive raised : Type :=
| Gate (e : exn)
| LoadError
| SystemExitMessage (message : string)
| SystemExitCode (code : Z).

(** One thing written to a stream: a text, the text [json.dumps] makes of a
    document, or the traceback the interpreter prints for what was raised. *)
Inductive output : Type :=
| Text (s : string)
| Json (d : document)
| Traceback (r : raised).

Record Process : Type := mkProcess {
  stdout : list output;
  stderr : list output;
  status : Z
}.

Section Commands.
Context `{RT : Runtime} `{HOST : Host}.

Definition require_openssl : option raised :=
  if openssl_found then None
  else Some (SystemExitMessage
               "openssl not found; required for MVP signature verification").

(** What is printed and what is raised, [None] when the command returns. *)
Definition command_verify (args : Args) : list output * option raised :=
  match require_openssl with
  | Some r => ([], Some r)
  | None =>
    match load_bundle (args_bundle args) with
    | None => ([], Some LoadError)
    | Some bundle =>
      match load_trust_store (args_trust_store args) with
      | None => ([], Some LoadError)
      | Some trust_store =>
        match load_policy (args_policy args) with
        | None => ([], Some LoadError)
        | Some policy =>
          match verify_policy bundle policy trust_store (args_image_digest args) with
          | Raise e => ([], Some (Gate e))
          | Ok report =>
            if args_json args then ([Json (OkDocument report)], None)
            else ([Text "ok"], None)
          end
        end
      end
    end
  end.

(** [main], from the outcome of [parser.parse_args()]: the call of
    [args.func], which is [command_verify], the handler of [GateError], then
    what the interpreter does with [SystemExit] and with an exception nobody
    caught. *)
Definition main (parsed : parse_outcome) : Process :=
  match parsed with
  | HelpRequested help => mkProcess [Text help] [] 0
  | UsageError usage message => mkProcess [] [Text usage; Text message] 2
  | Parsed args =>
    match command_verify args with
    | (out, None) => mkProcess out [] 0
    | (out, Some (Gate (GateError message error_id details))) =>
      if args_json args
      then mkProcess (out ++ [Json (ErrorDocument error_id message details)]) [] 1
      else mkProcess out [Text message] 1
    | (out, Some (SystemExitMessage message)) => mkProcess out [Text message] 1
    | (out, Some (SystemExitCode code)) => mkProcess out [] code
    | (out, Some r) => mkProcess out [Traceback r] 1
    end
  end.

End Commands.

(** A host for the examples: [openssl] is installed and three files hold the
    documents of the admission scenario. *)
Definition demo_host : Host := {|
  openssl_found := true;
  load_bundle path :=
    if decide (path = "bundle.json") then Some Demo.bundle_ok
    else if decide (path = "unsigned.json")
         then Some (Demo.bundle_signed Demo.payload_provenance "zz" Demo.sig_1)
    else if decide (path = "forged.json")
         then Some (Demo.bundle_signed Demo.payload_provenance "k1" Demo.sig_bad)
    else None;
  load_trust_store path :=
    if decide (path = "trust.json") then Some Demo.store else None;
  load_policy path :=
    if decide (path = "policy.json") then Some Demo.policy_k1 else None
|}.

Definition demo_args (bundle : string) (json : bool) : parse_outcome :=
  Parsed (mkArgs bundle "trust.json" "policy.json" Demo.image_ok json).

End Cli.

(** ** More inputs for the examples *)

Module Samples.

(** The runtime of the examples with a signature stand-in that accepts
    [sig-1] under [pubkey-k1] for every message. *)
Definition lenient_runtime : Runtime := {|
  b64decode := Demo.demo_b64decode;
  decode_utf8 := Demo.demo_decode_utf8;
  json_loads := Demo.demo_json_loads;
  openssl_verify pub_der signature message :=
    Ok (bool_decide (pub_der = encode "pubkey-k1" ∧ signature = encode "sig-1"));
  set_iter := elements;
  set_iter_perm := λ s, Permutation_refl (elements s);
  b64decode_raises := Demo.demo_b64decode_raises;
  json_loads_raises := Demo.demo_json_loads_raises;
  openssl_verify_raises := λ _ _ _ _ H, match Ok_not_Raise H with end
|}.

(** Three entries of two logs. *)
Definition bundle_two_logs : Bundle :=
  Demo.bundle_of [Demo.att Demo.payload_provenance [Demo.signed_by "k1" Demo.sig_1]]
                 ["log-b"; "log-a"; "log-b"].

(** A statement without predicate type and without digest, alone and beside
    a provenance statement. *)
Definition bundle_untyped : Bundle :=
  Demo.bundle_signed Demo.payload_untyped "k1" Demo.sig_1.

Definition bundle_mixed : Bundle :=
  Demo.bundle_of [Demo.att Demo.payload_untyped [Demo.signed_by "k1" Demo.sig_1];
                  Demo.att Demo.payload_provenance [Demo.signed_by "k1" Demo.sig_1]]
                 ["log-a"].

Definition policy_none : Policy :=
  mkPolicy (Some []) (Some ["k1"]) None.

(** The signature of [k1] has no [sig]; the attestation has no [signatures];
    the second log entry has no [logId]. *)
Definition bundle_no_sig : Bundle :=
  Demo.bundle_of [mkAttestation (Some Demo.payload_provenance)
                                (Some [mkSignature (Some "k1") None])] ["log-a"].


Definition bundle_no_log_id : Bundle :=
  mkBundle (Some BUNDLE_MEDIA_TYPE) (Some BUNDLE_VERSION)
           (Items [Demo.att Demo.payload_provenance [Demo.signed_by "k1" Demo.sig_1]])
           (Items [mkLogEntry (Some "log-a"); mkLogEntry None]).

End Samples.

(** ** Further vocabulary *)

(** The key records of a trust store in the order [trust_store_keys] visits
    them: role after role, record after record. *)
Definition key_records (trust_store : TrustStore) : list KeyRecord :=
  mjoin (default [] (ts_keys trust_store)).*2.

(** The separator of [dsse_pae]. *)
Definition space : byte := " "%byte.

(** A record that carries a non-empty id and a public key. *)
Definition usable_key (record : KeyRecord) (k pub_key : string) : Prop :=
  key_id record = Some k ∧ k ≠ "" ∧ key_publicKey record = Some pub_key.

(** * Properties *)

(** ** The exception monad *)

Lemma bind_Ok {A B} (m : result A) (k : A → result B) (b : B) :
  m ≫= k = Ok b ↔ ∃ a, m = Ok a ∧ k a = Ok b.
Proof.
  unfold mbind, result_bind. destruct m as [a|e]; split.
  - eauto.
  - by intros (a' & [= <-] & ?).
  - done.
  - by intros (a' & ? & ?).
Qed.

Lemma bind_Raise {A B} (m : result A) (k : A → result B) (e : exn) :
  m ≫= k = Raise e ↔ m = Raise e ∨ ∃ a, m = Ok a ∧ k a = Raise e.
Proof.
  unfold mbind, result_bind. destruct m as [a|e']; split.
  - eauto.
  - intros [?|(a' & [= <-] & ?)]; done.
  - intros [= <-]. by left.
  - by intros [[= ->]|(a' & ? & ?)].
Qed.

Lemma subscript_Ok {A} key (x : option A) a : subscript key x = Ok a ↔ x = Some a.
Proof. destruct x; simpl; split; congruence. Qed.

(** ** [sorted] lists a set in increasing order, without repetition *)

Lemma elem_of_sorted (s : gset string) (x : string) : x ∈ sorted s ↔ x ∈ s.
Proof. unfold sorted. by rewrite merge_sort_Permutation, elem_of_elements. Qed.

Lemma sorted_Sorted (s : gset string) : Sorted String.le (sorted s).
Proof. apply (Sorted_merge_sort _). Qed.

Lemma sorted_NoDup (s : gset string) : NoDup (sorted s).
Proof. unfold sorted. rewrite merge_sort_Permutation. apply NoDup_elements. Qed.

(** The three properties determine the list. *)
Lemma sorted_unique (s : gset string) (l : list string) :
  Sorted String.le l → NoDup l → (∀ x, x ∈ l ↔ x ∈ s) → l = sorted s.
Proof.
  intros Hl Hnd Hin. apply (Sorted_unique String.le); [done|apply sorted_Sorted|].
  apply NoDup_Permutation; [done|apply sorted_NoDup|].
  intros x. by rewrite Hin, elem_of_sorted.
Qed.

Lemma sorted_opt_Ok (s : gset (option string)) (l : list (option string)) :
  sorted_opt s = Ok l → ∀ x, x ∈ l ↔ x ∈ s.
Proof.
  unfold sorted_opt. intros Hs x. case_decide as Hnone.
  - case_decide as Hsize; [|done]. injection Hs as <-.
    apply size_1_elem_of in Hsize as [y Hy]. apply leibniz_equiv in Hy.
    rewrite Hy in Hnone |- *. apply elem_of_singleton in Hnone as <-. set_solver.
  - injection Hs as <-. rewrite list_elem_of_fmap. split.
    + intros (y & -> & Hy). rewrite merge_sort_Permutation in Hy.
      apply list_elem_of_omap in Hy as (o & Ho & Hoy). simpl in Hoy. subst o.
      by apply elem_of_elements.
    + intros Hx. destruct x as [y|]; [|done]. exists y. split; [done|].
      rewrite merge_sort_Permutation. apply list_elem_of_omap.
      exists (Some y). split; [by apply elem_of_elements|done].
Qed.

(** ** The message authenticator *)

Lemma encode_app (s1 s2 : string) : encode (s1 +:+ s2) = encode s1 ++ encode s2.
Proof.
  unfold encode, list_byte_of_string. induction s1 as [|c s1 IH]; [done|].
  change (String c s1 +:+ s2) with (String c (s1 +:+ s2)).
  cbn [list_ascii_of_string map app]. by rewrite IH.
Qed.

Lemma decimal_value_acc_uint (d : Decimal.uint) (acc : nat) :
  decimal_value_acc (NilEmpty.string_of_uint d) acc = Some (Nat.of_uint_acc d acc).
Proof.
  revert acc. induction d as [|d IH|d IH|d IH|d IH|d IH|d IH|d IH|d IH|d IH|d IH];
    intros acc; simpl; [done|..];
    rewrite IH, Nat.tail_mul_spec; do 2 f_equal; lia.
Qed.

Lemma decimal_value_uint (d : Decimal.uint) :
  d ≠ Decimal.Nil →
  decimal_value (NilEmpty.string_of_uint d) = Some (Nat.of_uint d).
Proof.
  intros Hd. unfold Nat.of_uint. rewrite <- decimal_value_acc_uint.
  by destruct d.
Qed.

(** [str] writes a natural number as its decimal numeral. *)
Lemma decimal_value_str_of_nat (n : nat) : decimal_value (str_of_nat n) = Some n.
Proof.
  unfold str_of_nat, NilZero.string_of_uint.
  pose proof (DecimalNat.Unsigned.of_to n) as Hn.
  destruct (Nat.to_uint n) as [|d|d|d|d|d|d|d|d|d|d] eqn:Hd;
    [by subst n|..]; rewrite decimal_value_uint by done; by rewrite Hn.
Qed.

Lemma nzhead_not_D0 (d d' : Decimal.uint) : Decimal.nzhead d ≠ Decimal.D0 d'.
Proof. induction d; simpl; congruence. Qed.

Lemma str_of_nat_numeral (n : nat) : decimal_numeral (str_of_nat n) n.
Proof.
  split; [apply decimal_value_str_of_nat|].
  unfold str_of_nat, NilZero.string_of_uint.
  assert (Nat.to_uint n = Decimal.unorm (Nat.to_uint n)) as Hnorm.
  { rewrite <- DecimalNat.Unsigned.to_of. by rewrite DecimalNat.Unsigned.of_to. }
  revert Hnorm. generalize (Nat.to_uint n). intros d Hd. unfold Decimal.unorm in Hd.
  pose proof (nzhead_not_D0 d) as Hnz.
  destruct (Decimal.nzhead d) eqn:Hh; subst d; simpl; eauto; try (by destruct (Hnz u));
    right; eexists _, _; (split; [reflexivity|done]).
Qed.

(** C9. For every payload type and base64 payload, [dsse_pae] returns exactly
    the bytes of [DSSEv1 SP len1 SP payloadType SP len2 SP payload], where
    [len1] and [len2] are the decimal numerals of the numbers of UTF-8 bytes
    of the two fields; the records are separated by one space and nothing
    follows the payload.  [dsse_pae] is a function of its two arguments (it
    does not use the runtime), so equal inputs give equal bytes. *)
Theorem dsse_pae_layout (payload_type payload_b64 : string) :
  let n1 := length (encode payload_type) in
  let n2 := length (encode payload_b64) in
  dsse_pae payload_type payload_b64
    = encode (pae_layout (str_of_nat n1) payload_type (str_of_nat n2) payload_b64)
  ∧ decimal_numeral (str_of_nat n1) n1
  ∧ decimal_numeral (str_of_nat n2) n2
  ∧ ∀ payload_type' payload_b64',
      payload_type' = payload_type → payload_b64' = payload_b64 →
      dsse_pae payload_type' payload_b64' = dsse_pae payload_type payload_b64.
Proof.
  intros n1 n2. repeat split; try apply str_of_nat_numeral.
  - unfold dsse_pae, enc, pae_layout. rewrite !encode_app.
    fold n1 n2. by rewrite <- !(assoc_L (++)).
  - by intros ?? -> ->.
Qed.

(** The layout on the payload type of the gate and an empty JSON object. *)
Example dsse_pae_example :
  dsse_pae PAYLOAD_TYPE "e30=" = encode "DSSEv1 28 application/vnd.in-toto+json 4 e30=".
Proof. reflexivity. Qed.

(** ** The bundle validator *)

(** C8. [sanity_check_bundle] makes four checks in order and stops at the
    first that fails: the media type, the version, a non-empty list of
    attestations, a non-empty list of log entries.  Each failure is a
    [GateError] with the identifier [ERR_POLICY_DENIED] whose details name the
    field; a bundle that passes the four checks raises nothing. *)
Theorem sanity_check_bundle_checks (bundle : Bundle) :
  let denied message name :=
    sanity_check_bundle bundle
      = Raise (GateError message "ERR_POLICY_DENIED" [("field", VStr name)]) in
  let media_ok :=
    bundle_mediaType bundle = Some "application/vnd.verified-container.bundle+json" in
  let version_ok := bundle_version bundle = Some "0.1.0" in
  let attestations_ok := ∃ a l, bundle_attestations bundle = Items (a :: l) in
  let entries_ok := ∃ e l, bundle_logEntries bundle = Items (e :: l) in
  (¬ media_ok → denied "invalid mediaType" "mediaType") ∧
  (media_ok → ¬ version_ok → denied "unsupported bundle version" "version") ∧
  (media_ok → version_ok → ¬ attestations_ok →
     denied "attestations required" "attestations") ∧
  (media_ok → version_ok → attestations_ok → ¬ entries_ok →
     denied "logEntries required" "logEntries") ∧
  (media_ok → version_ok → attestations_ok → entries_ok →
     sanity_check_bundle bundle = Ok ()).
Proof.
  intros denied media_ok version_ok attestations_ok entries_ok.
  subst denied media_ok version_ok attestations_ok entries_ok.
  unfold sanity_check_bundle, BUNDLE_MEDIA_TYPE, BUNDLE_VERSION, ERR_POLICY_DENIED.
  destruct bundle as [mt v atts entries]; simpl.
  destruct atts as [| |[|a l]], entries as [| |[|e l']]; simpl;
    repeat split; intros; repeat case_decide; simpl; try done;
    repeat match goal with
           | H : ∃ _ _, _ = _ |- _ => destruct H as (? & ? & ?)
           | H : ¬ (∃ _ _, _ = _) |- _ => destruct H; eauto
           end; done.
Qed.

(** The bundle of the admission scenario passes; a bundle without log
    entries is denied on that field. *)
Lemma sanity_check_bundle_checks_witness :
  sanity_check_bundle Demo.bundle_ok = Ok () ∧
  sanity_check_bundle
    (mkBundle (Some BUNDLE_MEDIA_TYPE) (Some BUNDLE_VERSION)
              (Items [Demo.att Demo.payload_provenance []]) Missing)
    = Raise (GateError "logEntries required" "ERR_POLICY_DENIED"
               [("field", VStr "logEntries")]).
Proof.
  split.
  - apply (sanity_check_bundle_checks Demo.bundle_ok); simpl; eauto.
  - apply (sanity_check_bundle_checks
             (mkBundle (Some BUNDLE_MEDIA_TYPE) (Some BUNDLE_VERSION)
                       (Items [Demo.att Demo.payload_provenance []]) Missing));
      simpl; eauto.
    by intros (? & ? & ?).
Defined.

(** ** The scan of the signatures of an attestation *)

Section Evaluation.
Context `{RT : Runtime}.

Implicit Types (allowed_signers : gset string) (keys : gmap string string).
Implicit Types (seen : gset string) (sigs : list Signature).

Lemma truthy_Some (k : string) : truthy (Some k) = true ↔ k ≠ "".
Proof. destruct k; simpl; split; congruence. Qed.

Lemma keyids_cons (s : Signature) sigs :
  keyids (s :: sigs)
    = match sig_keyid s with
      | Some k => if decide (k ≠ "") then k :: keyids sigs else keyids sigs
      | None => keyids sigs
      end.
Proof.
  unfold keyids. simpl. destruct (sig_keyid s) as [k|]; [|done].
  by rewrite filter_cons.
Qed.

Lemma record_signer_keyids (s : Signature) seen :
  record_signer (sig_keyid s) seen = seen ∪ list_to_set (keyids [s]).
Proof.
  rewrite keyids_cons. unfold record_signer.
  destruct (sig_keyid s) as [k|]; [|set_solver].
  destruct (truthy (Some k)) eqn:Hk.
  - apply truthy_Some in Hk. rewrite decide_True by done. set_solver.
  - rewrite decide_False; [set_solver|]. rewrite <- truthy_Some. congruence.
Qed.

Lemma keyids_app sigs1 sigs2 : keyids (sigs1 ++ sigs2) = keyids sigs1 ++ keyids sigs2.
Proof. unfold keyids. by rewrite omap_app, filter_app. Qed.

Lemma candidate_key_Some allowed_signers keys (s : Signature) pub_key :
  candidate_key allowed_signers keys (sig_keyid s) = Some pub_key →
  allowed_and_resolvable allowed_signers keys s ∧
  sig_keyid s ≫= (keys !!.) = Some pub_key.
Proof.
  unfold candidate_key, allowed_and_resolvable.
  destruct (sig_keyid s) as [k|]; [|done]. case_decide; [|done]. simpl. eauto.
Qed.

Lemma candidate_key_None allowed_signers keys (s : Signature) :
  candidate_key allowed_signers keys (sig_keyid s) = None ↔
  ¬ allowed_and_resolvable allowed_signers keys s.
Proof.
  unfold candidate_key, allowed_and_resolvable.
  destruct (sig_keyid s) as [k|]; [|naive_solver]. case_decide; [|naive_solver].
  destruct (keys !! k) as [pk|] eqn:Hk; [|naive_solver].
  split; [done|]. intros []. eauto.
Qed.

(** No signature from an allowed, resolvable signer: every signature is
    visited, none is checked. *)
Lemma scan_signatures_no_match allowed_signers keys a sigs seen :
  first_match allowed_signers keys sigs = None →
  scan_signatures allowed_signers keys a sigs seen
    = Ok (false, seen ∪ list_to_set (keyids sigs)).
Proof.
  unfold first_match. revert seen. induction sigs as [|s sigs IH]; intros seen Hnone.
  - simpl. f_equal. f_equal. set_solver.
  - simpl in Hnone. case_decide as Hs; [done|].
    apply fmap_None in Hnone. apply candidate_key_None in Hs.
    simpl. rewrite Hs, IH by done. f_equal. f_equal.
    rewrite record_signer_keyids. change (s :: sigs) with ([s] ++ sigs).
    rewrite (keyids_app [s]). set_solver.
Qed.

(** Otherwise the scan stops at the first such signature: it is the only one
    checked, and what follows it in the list is not looked at. *)
Lemma scan_signatures_match allowed_signers keys a sigs seen i s :
  first_match allowed_signers keys sigs = Some (i, s) →
  ∃ pub_key,
    sig_keyid s ≫= (keys !!.) = Some pub_key ∧
    scan_signatures allowed_signers keys a sigs seen
      = (payload_b64 ← subscript "payload" (att_payload a);
         signature_b64 ← subscript "sig" (sig_sig s);
         verify_signature pub_key payload_b64 signature_b64;;
         Ok (true, seen ∪ list_to_set (keyids (take (S i) sigs)))).
Proof.
  unfold first_match. revert seen i.
  induction sigs as [|s' sigs IH]; intros seen i Hfind; [done|].
  simpl in Hfind. case_decide as Hs.
  - injection Hfind as <- <-.
    destruct (candidate_key allowed_signers keys (sig_keyid s')) as [pk|] eqn:Hpk;
      [|apply candidate_key_None in Hpk; contradiction].
    exists pk. split; [by apply candidate_key_Some in Hpk as [_ ?]|].
    simpl. rewrite Hpk, take_0. by rewrite record_signer_keyids.
  - apply fmap_Some in Hfind as ([j s''] & Hfind & [= -> ->]).
    destruct (IH (record_signer (sig_keyid s') seen) j Hfind) as (pk & Hpk & Hscan).
    exists pk. split; [done|].
    apply candidate_key_None in Hs. simpl scan_signatures. rewrite Hs, Hscan.
    rewrite record_signer_keyids.
    change (take (S (S j)) (s' :: sigs)) with ([s'] ++ take (S j) sigs).
    rewrite (keyids_app [s']).
    by replace (seen ∪ list_to_set (keyids [s']) ∪ list_to_set (keyids (take (S j) sigs)))
      with (seen ∪ list_to_set (keyids [s'] ++ keyids (take (S j) sigs))) by set_solver.
Qed.



(** ** The signature verifier *)

Lemma verify_signature_Ok (pub_key_b64 payload_b64 signature_b64 : string) :
  verify_signature pub_key_b64 payload_b64 signature_b64 = Ok () ↔
  ∃ pub_der signature,
    b64decode pub_key_b64 = Ok pub_der ∧
    b64decode signature_b64 = Ok signature ∧
    openssl_verify pub_der signature (dsse_pae PAYLOAD_TYPE payload_b64) = Ok true.
Proof.
  unfold verify_signature, run_openssl_verify.
  destruct (b64decode pub_key_b64) as [pub|e1]; simpl;
    [|split; [done|by intros (? & ? & ? & _)]].
  destruct (b64decode signature_b64) as [sg|e2]; simpl;
    [|split; [done|by intros (? & ? & _ & ? & _)]].
  destruct (openssl_verify _ _ _) as [[]|e3] eqn:Hv; simpl; split; eauto; try done.
  all: intros (? & ? & [= <-] & [= <-] & ?); congruence.
Qed.

(** The verifier fails with the exception the base64 decoder raises on the
    key, with the one it raises on the signature once the key is decoded,
    with the [CalledProcessError] of an [openssl] process that exits with a
    status other than 0, or with the exception of the files or of the
    process that could not be started. *)
Lemma verify_signature_Raise (pub_key_b64 payload_b64 signature_b64 : string) e :
  verify_signature pub_key_b64 payload_b64 signature_b64 = Raise e ↔
  b64decode pub_key_b64 = Raise e ∨
  (∃ pub_der, b64decode pub_key_b64 = Ok pub_der ∧
              b64decode signature_b64 = Raise e) ∨
  ∃ pub_der signature,
    b64decode pub_key_b64 = Ok pub_der ∧
    b64decode signature_b64 = Ok signature ∧
    (openssl_verify pub_der signature (dsse_pae PAYLOAD_TYPE payload_b64) = Ok false ∧
     e = CalledProcessError ∨
     openssl_verify pub_der signature (dsse_pae PAYLOAD_TYPE payload_b64) = Raise e).
Proof.
  unfold verify_signature, run_openssl_verify.
  destruct (b64decode pub_key_b64) as [pub|e1]; simpl.
  2:{ split; [intros [= <-]; eauto|].
      by intros [[= <-]|[(? & ? & _)|(? & ? & ? & _)]]. }
  destruct (b64decode signature_b64) as [sg|e2]; simpl.
  2:{ split; [intros [= <-]; eauto|].
      by intros [?|[(? & _ & [= <-])|(? & ? & _ & ? & _)]]. }
  destruct (openssl_verify _ _ _) as [[]|e3] eqn:Hv; simpl; split.
  - done.
  - intros [?|[(? & _ & ?)|(? & ? & [= <-] & [= <-] & [[? _]|?])]]; congruence.
  - intros [= <-]. right. right. exists pub, sg. eauto.
  - intros [?|[(? & _ & ?)|(? & ? & [= <-] & [= <-] & [[_ ->]|?])]]; congruence.
  - intros [= <-]. right. right. exists pub, sg. eauto.
  - intros [?|[(? & _ & ?)|(? & ? & [= <-] & [= <-] & [[? _]|?])]]; congruence.
Qed.

Lemma verify_signature_never_gate_error pub_key_b64 payload_b64 signature_b64 e :
  verify_signature pub_key_b64 payload_b64 signature_b64 = Raise e →
  is_gate_error e = false.
Proof.
  rewrite verify_signature_Raise.
  intros [He|[(? & _ & He)|(? & ? & _ & _ & [[_ ->]|He])]]; [..|done|].
  - by apply b64decode_raises in He.
  - by apply b64decode_raises in He.
  - by apply openssl_verify_raises in He.
Qed.

(** The three statements executed on the first matching signature. *)
Lemma checked_signature_Ok keys a (s : Signature) pub_key :
  sig_keyid s ≫= (keys !!.) = Some pub_key →
  (payload_b64 ← subscript "payload" (att_payload a);
   signature_b64 ← subscript "sig" (sig_sig s);
   verify_signature pub_key payload_b64 signature_b64) = Ok ()
  ↔ signature_verifies keys a s.
Proof.
  intros Hpk. unfold signature_verifies. rewrite Hpk.
  destruct (att_payload a) as [payload|]; simpl; [|done].
  destruct (sig_sig s) as [sg|]; simpl; [|done].
  rewrite verify_signature_Ok.
  destruct (b64decode pub_key) as [pub|e1]; [|by split; [intros (? & ? & ? & _)|]].
  destruct (b64decode sg) as [sgb|e2]; [|by split; [intros (? & ? & _ & ? & _)|]].
  split; [by intros (? & ? & [= <-] & [= <-] & ?)|eauto].
Qed.

Lemma checked_signature_Raise keys a (s : Signature) pub_key e :
  (payload_b64 ← subscript "payload" (att_payload a);
   signature_b64 ← subscript "sig" (sig_sig s);
   verify_signature pub_key payload_b64 signature_b64) = Raise e →
  is_gate_error e = false.
Proof.
  destruct (att_payload a) as [payload|]; simpl; [|by intros [= <-]].
  destruct (sig_sig s) as [sg|]; simpl; [|by intros [= <-]].
  apply verify_signature_never_gate_error.
Qed.

(** ** The subjects of a statement *)

Lemma check_subjects_spec image_digest (subjects : list Subject) missing :
  check_subjects image_digest subjects missing
    = missing ++ omap (digest_mismatch image_digest) subjects.
Proof.
  unfold check_subjects. revert missing.
  induction subjects as [|subject subjects IH]; intros missing; simpl.
  - by rewrite app_nil_r.
  - rewrite IH. destruct (digest_mismatch image_digest subject); [|done].
    by rewrite <- app_assoc.
Qed.

Lemma digest_mismatch_mismatched image_digest (statement : Statement) :
  omap (digest_mismatch image_digest) (default [] (st_subject statement))
    = mismatched image_digest statement.
Proof.
  unfold mismatched, carried_digests.
  induction (default [] (st_subject statement)) as [|subject subjects IH]; [done|].
  cbn [omap list_omap].
  rewrite IH. unfold digest_mismatch.
  destruct (subject_digest subject) as [d|]; simpl; [|done].
  destruct (digest_sha256 d) as [dg|]; simpl; [|done].
  rewrite filter_cons. destruct dg as [|c r]; [done|].
  rewrite decide_True by done. rewrite filter_cons.
  cbn [truthy andb]. case_bool_decide as Heq; cbn [negb].
  - by rewrite decide_False by (by intros []).
  - by rewrite decide_True by done.
Qed.



(** ** One attestation *)

Implicit Types (acc : Acc) (a : Attestation) (image_digest : string).

Lemma statement_of_Some a statement :
  statement_of a = Some statement ↔ decode_statement a = Ok (Object statement).
Proof.
  unfold statement_of. destruct (decode_statement a) as [[|st]|e]; naive_solver.
Qed.

(** What [decode_statement] raises: the [KeyError] of a missing payload, the
    exception of the base64 decoder, the [UnicodeDecodeError] of the UTF-8
    decoder, or the exception of the JSON parser. *)
Lemma decode_statement_Raise a e :
  decode_statement a = Raise e ↔
  att_payload a = None ∧ e = KeyError "payload" ∨
  ∃ payload_b64, att_payload a = Some payload_b64 ∧
    (b64decode payload_b64 = Raise e ∨
     ∃ raw, b64decode payload_b64 = Ok raw ∧
       (decode_utf8 raw = None ∧ e = UnicodeDecodeError ∨
        ∃ text, decode_utf8 raw = Some text ∧ json_loads text = Raise e)).
Proof.
  unfold decode_statement.
  destruct (att_payload a) as [p|]; simpl.
  2:{ split; [intros [= <-]; by left|]. by intros [[_ ->]|(? & ? & _)]. }
  split.
  - intros Hraise. right. exists p. split; [done|].
    destruct (b64decode p) as [raw|e1]; simpl in Hraise; [|left; congruence].
    right. exists raw. split; [done|].
    destruct (decode_utf8 raw) as [text|]; simpl in Hraise.
    + right. by exists text.
    + left. by injection Hraise as <-.
  - intros [[? _]|(p' & [= <-] & Hrest)]; [done|].
    destruct Hrest as [->|(raw & -> & Hrest)]; [done|]. simpl.
    destruct Hrest as [[-> ->]|(text & -> & Hjson)]; done.
Qed.

Lemma decode_statement_never_gate_error a e :
  decode_statement a = Raise e → is_gate_error e = false.
Proof.
  rewrite decode_statement_Raise.
  intros [[_ ->]|(p & _ & [He|(raw & _ & [[_ ->]|(text & _ & He)])])]; [done|..|done|].
  - by apply b64decode_raises in He.
  - by apply json_loads_raises in He.
Qed.

Lemma statement_of_None a :
  statement_of a = None →
  decode_statement a = Ok NotAnObject ∨
  ∃ e, decode_statement a = Raise e ∧ is_gate_error e = false.
Proof.
  unfold statement_of.
  destruct (decode_statement a) as [[|st]|e] eqn:Hd; [by left|done|].
  intros _. right. exists e. split; [done|].
  by apply decode_statement_never_gate_error in Hd.
Qed.

(** An attestation whose payload does not decode to an object ends the
    evaluation with the exception of the decoder or with the
    [AttributeError] of [statement.get]. *)
Lemma process_attestation_undecoded allowed_signers keys image_digest acc a :
  statement_of a = None →
  ∃ e, process_attestation allowed_signers keys image_digest acc a = Raise e ∧
       is_gate_error e = false.
Proof.
  intros [Hd|(e & Hd & He)]%statement_of_None; unfold process_attestation; rewrite Hd; simpl.
  - by eexists.
  - by exists e.
Qed.

Lemma process_attestation_decoded allowed_signers keys image_digest acc a statement :
  statement_of a = Some statement →
  process_attestation allowed_signers keys image_digest acc a
    = ('(valid_signature, seen) ←
         scan_signatures allowed_signers keys a (signatures_of a) (seen_signers acc);
       if negb valid_signature then
         Raise (GateError "no valid signature for allowed signer" ERR_POLICY_DENIED
                  [("allowed", VStrs (sorted allowed_signers));
                   ("seen", VStrs (sorted seen))])
       else Ok (mkAcc (seen_predicates acc ∪ {[ st_predicateType statement ]}) seen
                      (missing_subjects acc ++ mismatched image_digest statement))).
Proof.
  intros Hst%statement_of_Some. unfold process_attestation. rewrite Hst. simpl.
  by rewrite check_subjects_spec, digest_mismatch_mismatched.
Qed.

(** No signature from an allowed, resolvable signer: the denial of line 156,
    with every non-empty key id seen so far. *)
Lemma process_attestation_no_match allowed_signers keys image_digest acc a statement :
  statement_of a = Some statement →
  first_match allowed_signers keys (signatures_of a) = None →
  process_attestation allowed_signers keys image_digest acc a
    = Raise (GateError "no valid signature for allowed signer" ERR_POLICY_DENIED
               [("allowed", VStrs (sorted allowed_signers));
                ("seen", VStrs (sorted (seen_signers acc ∪
                                        list_to_set (keyids (signatures_of a)))))]).
Proof.
  intros Hst Hnone. rewrite (process_attestation_decoded _ _ _ _ _ _ Hst).
  by rewrite scan_signatures_no_match.
Qed.

(** The first signature from an allowed, resolvable signer does not verify:
    the exception of the verifier ends the evaluation. *)
Lemma process_attestation_unverified allowed_signers keys image_digest acc a
    statement i s :
  statement_of a = Some statement →
  first_match allowed_signers keys (signatures_of a) = Some (i, s) →
  ¬ signature_verifies keys a s →
  ∃ e, process_attestation allowed_signers keys image_digest acc a = Raise e ∧
       is_gate_error e = false.
Proof.
  intros Hst Hfind Hbad. rewrite (process_attestation_decoded _ _ _ _ _ _ Hst).
  destruct (scan_signatures_match _ _ a _ (seen_signers acc) _ _ Hfind)
    as (pk & Hpk & ->).
  pose proof (checked_signature_Ok keys a s pk Hpk) as Hok.
  pose proof (checked_signature_Raise keys a s pk) as Hraise.
  destruct (att_payload a) as [payload|]; simpl in *; [|eauto].
  destruct (sig_sig s) as [sg|]; simpl in *; [|eauto].
  destruct (verify_signature pk payload sg) as [[]|e]; simpl; [|eauto].
  by destruct Hbad, Hok as [Hok _]; apply Hok.
Qed.

Lemma process_attestation_Ok allowed_signers keys image_digest acc a acc' :
  process_attestation allowed_signers keys image_digest acc a = Ok acc' ↔
  ∃ statement,
    statement_of a = Some statement ∧
    signer_valid allowed_signers keys a ∧
    acc' = mkAcc (seen_predicates acc ∪ {[ st_predicateType statement ]})
                 (seen_signers acc ∪
                  list_to_set (keyids (scanned allowed_signers keys (signatures_of a))))
                 (missing_subjects acc ++ mismatched image_digest statement).
Proof.
  destruct (statement_of a) as [st|] eqn:Hst.
  2:{ destruct (process_attestation_undecoded allowed_signers keys image_digest acc a Hst)
        as (e & -> & _). split; [done|by intros (? & ? & _)]. }
  rewrite (process_attestation_decoded _ _ _ _ _ _ Hst).
  unfold signer_valid, scanned.
  destruct (first_match allowed_signers keys (signatures_of a)) as [[i s]|] eqn:Hfind.
  - destruct (scan_signatures_match _ _ a _ (seen_signers acc) _ _ Hfind)
      as (pk & Hpk & ->).
    pose proof (checked_signature_Ok keys a s pk Hpk) as Hok.
    destruct (att_payload a) as [payload|]; simpl in *;
      [|split; [done|intros (? & _ & ?%Hok & _); done]].
    destruct (sig_sig s) as [sg|]; simpl in *;
      [|split; [done|intros (? & _ & ?%Hok & _); done]].
    destruct (verify_signature pk payload sg) as [[]|e]; simpl in *;
      [|split; [done|intros (? & _ & ?%Hok & _); done]].
    split; [intros [= <-]; exists st; split; [done|]; split; [by apply Hok|done]
           |by intros (? & [= <-] & _ & ->)].
  - rewrite scan_signatures_no_match by done. simpl.
    split; [done|by intros (? & _ & ? & _)].
Qed.

(** ** The loop over the attestations *)

Lemma process_attestations_app allowed_signers keys image_digest
    (pre post : list Attestation) acc :
  process_attestations allowed_signers keys image_digest (pre ++ post) acc
    = (acc' ← process_attestations allowed_signers keys image_digest pre acc;
       process_attestations allowed_signers keys image_digest post acc').
Proof.
  revert acc. induction pre as [|a pre IH]; intros acc; [done|].
  simpl. destruct (process_attestation _ _ _ acc a) as [acc1|e]; simpl; [apply IH|done].
Qed.

Lemma observed_signers_cons allowed_signers keys a (atts : list Attestation) :
  observed_signers allowed_signers keys (a :: atts)
    = list_to_set (keyids (scanned allowed_signers keys (signatures_of a)))
      ∪ observed_signers allowed_signers keys atts.
Proof. unfold observed_signers. simpl. by rewrite list_to_set_app_L. Qed.

(** The loop ends normally exactly when every attestation decodes to a
    statement and is signer-valid; the accumulators then hold what the
    vocabulary calls the observed predicates, signers and mismatches. *)
Lemma process_attestations_Ok allowed_signers keys image_digest
    (atts : list Attestation) acc acc' :
  process_attestations allowed_signers keys image_digest atts acc = Ok acc' ↔
  ∃ statements,
    Forall2 (λ a st, statement_of a = Some st) atts statements ∧
    Forall (signer_valid allowed_signers keys) atts ∧
    acc' = mkAcc (seen_predicates acc ∪ observed_predicates statements)
                 (seen_signers acc ∪ observed_signers allowed_signers keys atts)
                 (missing_subjects acc ++ observed_mismatches image_digest statements).
Proof.
  revert acc. induction atts as [|a atts IH]; intros acc.
  - simpl. split.
    + intros [= <-]. exists []. split; [constructor|]. split; [constructor|].
      destruct acc as [p s m]. unfold observed_predicates, observed_signers,
        observed_mismatches. simpl. f_equal; [set_solver..|by rewrite app_nil_r].
    + intros (sts & Hsts & _ & ->). apply Forall2_nil_inv_l in Hsts as ->.
      destruct acc as [p s m]. unfold observed_predicates, observed_signers,
        observed_mismatches. simpl. do 2 f_equal; [set_solver..|by rewrite app_nil_r].
  - simpl. rewrite bind_Ok. split.
    + intros (acc1 & (st & Hst & Hvalid & ->)%process_attestation_Ok
                   & (sts & Hsts & Hvalids & ->)%IH).
      exists (st :: sts). split; [by constructor|]. split; [by constructor|].
      rewrite observed_signers_cons. unfold observed_predicates, observed_mismatches.
      simpl. f_equal; [set_solver..|by rewrite app_assoc].
    + intros (sts & Hsts & Hvalids & ->).
      apply Forall2_cons_inv_l in Hsts as (st & sts' & Hst & Hsts & ->).
      apply Forall_cons in Hvalids as [Hvalid Hvalids].
      eexists. split; [apply process_attestation_Ok; eauto|].
      apply IH. exists sts'. split; [done|]. split; [done|].
      rewrite observed_signers_cons. unfold observed_predicates, observed_mismatches.
      simpl. f_equal; [set_solver..|by rewrite app_assoc].
Qed.



(** ** The log entries *)

Lemma size_list_to_set_distinct (l : list string) :
  size (list_to_set l : gset string) = length (remove_dups l).
Proof.
  rewrite <- (size_list_to_set (C := gset string)) by apply NoDup_remove_dups.
  f_equal. apply set_eq. intros x.
  by rewrite !elem_of_list_to_set, elem_of_remove_dups.
Qed.

Lemma mapM_logId (entries : list LogEntry) (ids : list string) :
  mapM (λ entry, subscript "logId" (entry_logId entry)) entries = Ok ids ↔
  Forall (λ entry, is_Some (entry_logId entry)) entries ∧
  ids = omap entry_logId entries.
Proof.
  revert ids. induction entries as [|[[id|]] entries IH]; intros ids; simpl.
  - split; [by intros [= <-]|by intros [_ ->]].
  - rewrite bind_Ok. split.
    + intros (ids' & [Hall ->]%IH & [= <-]). split; [|done].
      constructor; [by eexists|done].
    + intros [[_ Hall]%Forall_cons ->]. eexists. split; [by apply IH|done].
  - split; [done|]. by intros [[[? ?] _]%Forall_cons _].
Qed.

Lemma mapM_logId_Raise (entries : list LogEntry) e :
  mapM (λ entry, subscript "logId" (entry_logId entry)) entries = Raise e →
  e = KeyError "logId".
Proof.
  induction entries as [|[[id|]] entries IH]; simpl; [done| |by intros [= <-]].
  destruct (mapM _ entries); simpl; [done|]. intros [= <-]. by apply IH.
Qed.

Lemma check_logs_Ok trust_store (log_ids : list string) :
  check_logs trust_store log_ids = Ok () ↔
  Forall (λ log_id, recognized_log trust_store log_id = true) log_ids.
Proof.
  induction log_ids as [|x l IH]; simpl.
  - split; [constructor|done].
  - rewrite Forall_cons. destruct (recognized_log trust_store x); simpl; [|naive_solver].
    rewrite IH. naive_solver.
Qed.

(** The loop stops at the first unrecognized identifier it meets. *)
Lemma check_logs_Raise trust_store (log_ids : list string) e :
  check_logs trust_store log_ids = Raise e ↔
  ∃ before x after,
    log_ids = before ++ x :: after ∧
    Forall (λ log_id, recognized_log trust_store log_id = true) before ∧
    recognized_log trust_store x = false ∧
    e = GateError "unknown log operator" ERR_POLICY_DENIED [("logId", VStr x)].
Proof.
  induction log_ids as [|y l IH]; simpl.
  - split; [done|]. by intros ([|??] & ? & ? & ? & _).
  - destruct (recognized_log trust_store y) eqn:Hy; simpl.
    + rewrite IH. split.
      * intros (before & x & after & -> & Hb & Hx & ->).
        exists (y :: before), x, after. by repeat split; [constructor|..].
      * intros ([|y' before] & x & after & [= -> Hl] & Hb & Hx & ->);
          [congruence|]. subst l.
        apply Forall_cons in Hb as [_ Hb]. by exists before, x, after.
    + split.
      * intros [= <-]. by exists [], y, l.
      * intros ([|y' before] & x & after & [= -> Hl] & Hb & Hx & ->); [done|].
        apply Forall_cons in Hb as [? _]. congruence.
Qed.

Lemma sanity_check_bundle_Ok (bundle : Bundle) :
  sanity_check_bundle bundle = Ok () →
  bundle_mediaType bundle = Some BUNDLE_MEDIA_TYPE ∧
  bundle_version bundle = Some BUNDLE_VERSION ∧
  (∃ a l, bundle_attestations bundle = Items (a :: l)) ∧
  (∃ entry l, bundle_logEntries bundle = Items (entry :: l)).
Proof.
  unfold sanity_check_bundle. repeat case_decide; try done.
  destruct (bundle_attestations bundle) as [| |[|a l]]; simpl; try done.
  destruct (bundle_logEntries bundle) as [| |[|entry l']]; simpl; try done.
  intros _. repeat split; try (by apply dec_stable); eauto.
Qed.

Lemma elem_of_set_iter (s : gset string) (x : string) : x ∈ set_iter s ↔ x ∈ s.
Proof. by rewrite set_iter_perm, elem_of_elements. Qed.

Lemma Forall_set_iter (P : string → Prop) (l : list string) :
  Forall P (set_iter (list_to_set l)) ↔ Forall P l.
Proof.
  rewrite !Forall_forall. setoid_rewrite elem_of_set_iter.
  by setoid_rewrite elem_of_list_to_set.
Qed.

(** A bundle, policy and trust store that satisfy [passes_log_checks] get
    through lines 120 to 133. *)
Lemma check_log_entries_Ok (bundle : Bundle) (policy : Policy) trust_store :
  passes_log_checks bundle policy trust_store →
  check_log_entries bundle trust_store (default 1%Z (policy_logQuorum policy))
    = Ok (list_to_set (log_ids_of bundle)).
Proof.
  intros (_ & _ & (_ & _ & _ & entry & l & Hentries)%sanity_check_bundle_Ok
            & Hids & Hquorum & Hlogs).
  unfold check_log_entries, log_ids_of, distinct_log_ids, log_ids_of in *.
  rewrite Hentries in *. simpl field_iter. simpl items in *.
  assert (mapM (λ entry, subscript "logId" (entry_logId entry)) (entry :: l)
          = Ok (omap entry_logId (entry :: l))) as Hmap by by apply mapM_logId.
  cbn [mbind result_bind] in *. rewrite Hmap. cbn [mbind result_bind].
  rewrite size_list_to_set_distinct.
  destruct (Z.ltb_spec (Z.of_nat (length (remove_dups (omap entry_logId (entry :: l)))))
                       (default 1%Z (policy_logQuorum policy))) as [?|_]; [lia|].
  apply Forall_set_iter, check_logs_Ok in Hlogs. by rewrite Hlogs.
Qed.




Lemma check_log_entries_inv (bundle : Bundle) trust_store (log_quorum : Z) s :
  sanity_check_bundle bundle = Ok () →
  check_log_entries bundle trust_store log_quorum = Ok s →
  Forall (λ entry, is_Some (entry_logId entry)) (items (bundle_logEntries bundle)) ∧
  (log_quorum ≤ Z.of_nat (length (distinct_log_ids bundle)))%Z ∧
  Forall (λ log_id, recognized_log trust_store log_id = true) (log_ids_of bundle) ∧
  s = list_to_set (log_ids_of bundle).
Proof.
  intros (_ & _ & _ & entry & l & Hentries)%sanity_check_bundle_Ok.
  unfold check_log_entries, distinct_log_ids, log_ids_of. rewrite Hentries.
  simpl field_iter. simpl items. cbn [mbind result_bind].
  destruct (mapM _ (entry :: l)) as [ids|e] eqn:Hmap; [|done].
  apply mapM_logId in Hmap as [Hids ->]. cbn [mbind result_bind].
  rewrite size_list_to_set_distinct.
  destruct (Z.ltb_spec (Z.of_nat (length (remove_dups (omap entry_logId (entry :: l)))))
                       log_quorum) as [?|Hq]; [done|].
  destruct (check_logs _ _) as [[]|e] eqn:Hlogs; [|done].
  apply check_logs_Ok in Hlogs. rewrite Forall_set_iter in Hlogs.
  intros [= <-]. repeat split; done.
Qed.

(** Fewer distinct identifiers than the quorum. *)
Lemma check_log_entries_quorum (bundle : Bundle) trust_store (log_quorum : Z) :
  sanity_check_bundle bundle = Ok () →
  Forall (λ entry, is_Some (entry_logId entry)) (items (bundle_logEntries bundle)) →
  (Z.of_nat (length (distinct_log_ids bundle)) < log_quorum)%Z →
  check_log_entries bundle trust_store log_quorum
    = Raise (GateError "log quorum not satisfied" ERR_POLICY_DENIED
               [("required", VInt log_quorum);
                ("observed", VInt (Z.of_nat (length (distinct_log_ids bundle))))]).
Proof.
  intros (_ & _ & _ & entry & l & Hentries)%sanity_check_bundle_Ok.
  unfold check_log_entries, distinct_log_ids, log_ids_of. rewrite Hentries.
  simpl field_iter. simpl items. cbn [mbind result_bind]. intros Hids Hlt.
  assert (mapM (λ entry, subscript "logId" (entry_logId entry)) (entry :: l)
          = Ok (omap entry_logId (entry :: l))) as -> by by apply mapM_logId.
  cbn [mbind result_bind]. rewrite size_list_to_set_distinct.
  by destruct (Z.ltb_spec (Z.of_nat (length (remove_dups (omap entry_logId (entry :: l)))))
                       log_quorum) as [_|?]; [|lia].
Qed.

(** The quorum is met but an identifier is not a key of the [logs] of the
    trust store: the denial names the first such identifier in the iteration
    order of the set. *)
Lemma check_log_entries_unknown (bundle : Bundle) trust_store (log_quorum : Z) :
  sanity_check_bundle bundle = Ok () →
  Forall (λ entry, is_Some (entry_logId entry)) (items (bundle_logEntries bundle)) →
  (log_quorum ≤ Z.of_nat (length (distinct_log_ids bundle)))%Z →
  Exists (λ log_id, recognized_log trust_store log_id = false) (log_ids_of bundle) →
  ∃ before log_id after,
    set_iter (list_to_set (log_ids_of bundle)) = before ++ log_id :: after ∧
    Forall (λ x, recognized_log trust_store x = true) before ∧
    log_id ∈ log_ids_of bundle ∧
    recognized_log trust_store log_id = false ∧
    check_log_entries bundle trust_store log_quorum
      = Raise (GateError "unknown log operator" ERR_POLICY_DENIED
                 [("logId", VStr log_id)]).
Proof.
  intros (_ & _ & _ & entry & l & Hentries)%sanity_check_bundle_Ok.
  unfold check_log_entries, distinct_log_ids, log_ids_of. rewrite Hentries.
  simpl field_iter. simpl items. cbn [mbind result_bind]. intros Hids Hq Hex.
  assert (mapM (λ entry, subscript "logId" (entry_logId entry)) (entry :: l)
          = Ok (omap entry_logId (entry :: l))) as -> by by apply mapM_logId.
  cbn [mbind result_bind]. rewrite size_list_to_set_distinct.
  destruct (Z.ltb_spec (Z.of_nat (length (remove_dups (omap entry_logId (entry :: l)))))
                       log_quorum) as [?|_]; [lia|].
  destruct (check_logs trust_store _) as [[]|e] eqn:Hlogs.
  - apply check_logs_Ok in Hlogs. rewrite Forall_set_iter in Hlogs.
    apply Exists_exists in Hex as (x & Hx & Hbad).
    rewrite Forall_forall in Hlogs. specialize (Hlogs x Hx). congruence.
  - apply check_logs_Raise in Hlogs as (before & x & after & Hsplit & Hb & Hx & ->).
    exists before, x, after. repeat split; try done.
    apply (elem_of_list_to_set (C := gset string)), elem_of_set_iter.
    rewrite Hsplit. set_solver.
Qed.

(** ** The checks after the loop *)

Lemma elem_of_missing_predicates (required : gset string)
    (seen : gset (option string)) (p : string) :
  p ∈ missing_predicates required seen ↔ p ∈ required ∧ Some p ∉ seen.
Proof. unfold missing_predicates. rewrite elem_of_filter. naive_solver. Qed.

Lemma missing_predicates_empty (required : gset string) (seen : gset (option string)) :
  missing_predicates required seen = ∅ ↔ ∀ p, p ∈ required → Some p ∈ seen.
Proof.
  split.
  - intros Hempty p Hp. destruct (decide (Some p ∈ seen)) as [|Hn]; [done|].
    assert (p ∈ missing_predicates required seen) as Hin
      by by apply elem_of_missing_predicates.
    rewrite Hempty in Hin. set_solver.
  - intros Hall. apply set_eq. intros p. rewrite elem_of_missing_predicates.
    split; [intros [Hp Hn]; by destruct Hn; apply Hall|set_solver].
Qed.

Lemma final_checks_Ok (required : gset string) image_digest (log_ids : gset string)
    acc (report : Report) :
  final_checks required image_digest log_ids acc = Ok report ↔
  missing_subjects acc = [] ∧
  (∀ p, p ∈ required → Some p ∈ seen_predicates acc) ∧
  ∃ l, sorted_opt (seen_predicates acc) = Ok l ∧
       report = mkReport l (sorted (seen_signers acc)) (sorted log_ids).
Proof.
  unfold final_checks. rewrite <- missing_predicates_empty.
  case_bool_decide as Hsub; simpl; [|naive_solver].
  case_bool_decide as Hmiss; simpl; [|naive_solver].
  rewrite bind_Ok. naive_solver.
Qed.



(** ** The whole evaluation *)

Lemma Forall2_statement_of (atts : list Attestation) (statements : list Statement) :
  Forall2 (λ a st, statement_of a = Some st) atts statements ↔
  Forall (λ a, is_Some (statement_of a)) atts ∧ statements = statements_of atts.
Proof.
  unfold statements_of. revert statements.
  induction atts as [|a atts IH]; intros statements.
  - split; [by intros ->%Forall2_nil_inv_l|intros [_ ->]; constructor].
  - split.
    + intros (st & sts & Hst & [Hall ->]%IH & ->)%Forall2_cons_inv_l.
      split; [constructor; [by eexists|done]|]. cbn [omap list_omap]. by rewrite Hst.
    + intros [[[st Hst] Hall]%Forall_cons ->]. cbn [omap list_omap]. rewrite Hst.
      constructor; [done|]. by apply IH.
Qed.

(** The loop on attestations that all pass signer validation. *)
Lemma process_attestations_valid (policy : Policy) trust_store image_digest
    (atts : list Attestation) acc acc' :
  process_attestations (allowed_signers_of policy) (trust_store_keys trust_store)
                       image_digest atts acc = Ok acc' ↔
  Forall (passes_signer_validation policy trust_store) atts ∧
  acc' = mkAcc (seen_predicates acc ∪ observed_predicates (statements_of atts))
               (seen_signers acc ∪
                observed_signers (allowed_signers_of policy)
                                 (trust_store_keys trust_store) atts)
               (missing_subjects acc ++
                observed_mismatches image_digest (statements_of atts)).
Proof.
  rewrite process_attestations_Ok. unfold passes_signer_validation.
  setoid_rewrite Forall2_statement_of. rewrite Forall_and. naive_solver.
Qed.

Lemma verify_policy_reaches_loop (bundle : Bundle) (policy : Policy) trust_store
    image_digest :
  passes_log_checks bundle policy trust_store →
  verify_policy bundle policy trust_store image_digest
    = (acc ← process_attestations (allowed_signers_of policy)
               (trust_store_keys trust_store) image_digest
               (attestations_of bundle) (mkAcc ∅ ∅ []);
       final_checks (list_to_set (required_predicates_of policy)) image_digest
                    (list_to_set (log_ids_of bundle)) acc).
Proof.
  intros Hpass. pose proof (check_log_entries_Ok _ _ _ Hpass) as Hlogs.
  destruct Hpass as ([required Hrequired] & [allowed Hallowed] & Hsanity & _).
  unfold verify_policy, allowed_signers_of, required_predicates_of, attestations_of.
  rewrite Hrequired, Hallowed, Hsanity. cbn [subscript mbind result_bind default].
  rewrite Hlogs. cbn [mbind result_bind].
  apply sanity_check_bundle_Ok in Hsanity as (_ & _ & (a & l & ->) & _).
  done.
Qed.

(** The evaluation returns a report exactly when the log checks pass, every
    attestation passes signer validation, no subject digest mismatches, every
    required predicate was observed and the observed predicate types can be
    sorted; the report lists the three observed sets in order. *)
Lemma verify_policy_Ok (bundle : Bundle) (policy : Policy) trust_store
    image_digest (report : Report) :
  verify_policy bundle policy trust_store image_digest = Ok report ↔
  passes_log_checks bundle policy trust_store ∧
  Forall (passes_signer_validation policy trust_store) (attestations_of bundle) ∧
  observed_mismatches image_digest (statements_of (attestations_of bundle)) = [] ∧
  (∀ p, p ∈ required_predicates_of policy →
        Some p ∈ observed_predicates (statements_of (attestations_of bundle))) ∧
  ∃ l, sorted_opt (observed_predicates (statements_of (attestations_of bundle))) = Ok l ∧
       report = mkReport l
                  (sorted (observed_signers (allowed_signers_of policy)
                             (trust_store_keys trust_store) (attestations_of bundle)))
                  (sorted (list_to_set (log_ids_of bundle))).
Proof.
  split.
  - intros Hok.
    assert (passes_log_checks bundle policy trust_store) as Hpass.
    { unfold verify_policy in Hok. unfold passes_log_checks.
      destruct (policy_requiredPredicates policy) as [required|]; [|done].
      destruct (policy_allowedSigners policy) as [allowed|]; [|done].
      cbn [subscript mbind result_bind] in Hok.
      destruct (sanity_check_bundle bundle) as [[]|e] eqn:Hsanity; [|done].
      cbn [mbind result_bind] in Hok.
      destruct (check_log_entries _ _ _) as [s|e] eqn:Hlogs; [|done].
      apply check_log_entries_inv in Hlogs as (? & ? & ? & _); [|done].
      repeat split; eauto. }
    rewrite (verify_policy_reaches_loop _ _ _ _ Hpass) in Hok.
    apply bind_Ok in Hok as (acc & [Hvalid ->]%process_attestations_valid
                                 & (Hsub & Hreq & l & Hl & ->)%final_checks_Ok).
    simpl in *. rewrite (left_id_L ∅ (∪)) in Hreq, Hl.
    rewrite (left_id_L ∅ (∪)).
    refine (conj Hpass (conj Hvalid (conj Hsub (conj _ _)))).
    + intros p Hp. apply Hreq. by apply elem_of_list_to_set.
    + eauto.
  - intros (Hpass & Hvalid & Hsub & Hreq & l & Hl & ->).
    rewrite (verify_policy_reaches_loop _ _ _ _ Hpass). apply bind_Ok.
    eexists. split; [by apply process_attestations_valid|].
    apply final_checks_Ok. simpl. rewrite !(left_id_L ∅ (∪)).
    refine (conj Hsub (conj _ _)).
    + intros p Hp. apply Hreq. by apply elem_of_list_to_set in Hp.
    + eauto.
Qed.




(** The accumulators when the loop gets to an attestation that follows
    [pre]. *)
Lemma verify_policy_at (bundle : Bundle) (policy : Policy) trust_store
    image_digest (pre : list Attestation) a (post : list Attestation) :
  reaches bundle policy trust_store pre a post →
  verify_policy bundle policy trust_store image_digest
    = (acc ← process_attestation (allowed_signers_of policy)
               (trust_store_keys trust_store) image_digest
               (mkAcc (observed_predicates (statements_of pre))
                      (observed_signers (allowed_signers_of policy)
                                        (trust_store_keys trust_store) pre)
                      (observed_mismatches image_digest (statements_of pre))) a;
       acc' ← process_attestations (allowed_signers_of policy)
                (trust_store_keys trust_store) image_digest post acc;
       final_checks (list_to_set (required_predicates_of policy)) image_digest
                    (list_to_set (log_ids_of bundle)) acc').
Proof.
  intros (Hpass & Hatts & Hpre).
  rewrite (verify_policy_reaches_loop _ _ _ _ Hpass).
  unfold attestations_of. rewrite Hatts. simpl items.
  rewrite process_attestations_app.
  assert (process_attestations (allowed_signers_of policy)
            (trust_store_keys trust_store) image_digest pre (mkAcc ∅ ∅ [])
          = Ok (mkAcc (observed_predicates (statements_of pre))
                      (observed_signers (allowed_signers_of policy)
                                        (trust_store_keys trust_store) pre)
                      (observed_mismatches image_digest (statements_of pre)))) as ->.
  { apply process_attestations_valid. split; [done|]. simpl.
    by rewrite !(left_id_L ∅ (∪)). }
  cbn [mbind result_bind process_attestations].
  by destruct (process_attestation _ _ _ _ a).
Qed.

Lemma verify_policy_raise_at (bundle : Bundle) (policy : Policy) trust_store
    image_digest (pre : list Attestation) a (post : list Attestation) e :
  reaches bundle policy trust_store pre a post →
  process_attestation (allowed_signers_of policy) (trust_store_keys trust_store)
    image_digest
    (mkAcc (observed_predicates (statements_of pre))
           (observed_signers (allowed_signers_of policy)
                             (trust_store_keys trust_store) pre)
           (observed_mismatches image_digest (statements_of pre))) a = Raise e →
  verify_policy bundle policy trust_store image_digest = Raise e.
Proof.
  intros Hreach Hraise. rewrite (verify_policy_at _ _ _ _ _ _ _ Hreach).
  by rewrite Hraise.
Qed.

(** ** Which check a denial comes from *)

Lemma sanity_check_bundle_Raise (bundle : Bundle) e :
  sanity_check_bundle bundle = Raise e →
  error_id_of e = Some ERR_POLICY_DENIED ∧
  ∃ name, details_of e = [("field", VStr name)] ∧
          (message_of e, name) ∈
            [(Some "invalid mediaType", "mediaType");
             (Some "unsupported bundle version", "version");
             (Some "attestations required", "attestations");
             (Some "logEntries required", "logEntries")].
Proof.
  unfold sanity_check_bundle.
  repeat case_decide; [| |destruct (nonempty_list (bundle_attestations bundle));
                          [destruct (nonempty_list (bundle_logEntries bundle))|]];
    simpl; try done; intros [= <-]; (split; [done|]); eexists; (split; [done|]);
    set_solver.
Qed.

Lemma check_log_entries_Raise (bundle : Bundle) trust_store (log_quorum : Z) e :
  check_log_entries bundle trust_store log_quorum = Raise e →
  message_of e ∈ [None; Some "log quorum not satisfied"; Some "unknown log operator"].
Proof.
  unfold check_log_entries.
  destruct (bundle_logEntries bundle) as [| |entries]; simpl field_iter;
    cbn [mbind result_bind]; [|intros [= <-]; set_solver|].
  - simpl. case_match; [intros [= <-]; set_solver|].
    destruct (check_logs _ _) as [[]|e'] eqn:Hlogs; [done|]. intros [= <-].
    apply check_logs_Raise in Hlogs as (? & ? & ? & _ & _ & _ & ->). set_solver.
  - destruct (mapM _ entries) as [ids|e'] eqn:Hmap; cbn [mbind result_bind].
    + case_match; [intros [= <-]; set_solver|].
      destruct (check_logs _ _) as [[]|e''] eqn:Hlogs; [done|]. intros [= <-].
      apply check_logs_Raise in Hlogs as (? & ? & ? & _ & _ & _ & ->). set_solver.
    + intros [= <-]. apply mapM_logId_Raise in Hmap as ->. set_solver.
Qed.

Lemma process_attestation_Raise allowed_signers keys image_digest acc a e :
  process_attestation allowed_signers keys image_digest acc a = Raise e →
  (is_gate_error e = false ∧
   (statement_of a = None ∨
    ∃ i s, first_match allowed_signers keys (signatures_of a) = Some (i, s) ∧
           ¬ signature_verifies keys a s)) ∨
  (is_Some (statement_of a) ∧
   first_match allowed_signers keys (signatures_of a) = None ∧
   e = GateError "no valid signature for allowed signer" ERR_POLICY_DENIED
         [("allowed", VStrs (sorted allowed_signers));
          ("seen", VStrs (sorted (seen_signers acc ∪
                                  list_to_set (keyids (signatures_of a)))))]).
Proof.
  intros Hraise. destruct (statement_of a) as [st|] eqn:Hst.
  2:{ destruct (process_attestation_undecoded allowed_signers keys image_digest acc a Hst)
        as (e' & He' & Hin). left. split; [|by left].
      rewrite Hraise in He'. by injection He' as <-. }
  destruct (first_match allowed_signers keys (signatures_of a)) as [[i s]|] eqn:Hfind.
  - assert (Decision (signature_verifies keys a s)) as [Hv|Hv]
      by (unfold signature_verifies; repeat case_match; try apply _;
          destruct (openssl_verify _ _ _) as [[]|]; (by left) || (by right)).
    + assert (signer_valid allowed_signers keys a) as Hvalid
        by (unfold signer_valid; by rewrite Hfind).
      assert (∃ acc', process_attestation allowed_signers keys image_digest acc a
                      = Ok acc') as [acc' Hok]
        by (eexists; apply process_attestation_Ok; eauto).
      congruence.
    + destruct (process_attestation_unverified _ _ image_digest acc _ _ _ _ Hst Hfind Hv)
        as (e' & He' & Hng).
      left. split; [congruence|right; eauto].
  - right. rewrite (process_attestation_no_match _ _ _ _ _ _ Hst Hfind) in Hraise.
    injection Hraise as <-. eauto.
Qed.

Lemma process_attestations_Raise allowed_signers keys image_digest
    (atts : list Attestation) acc e :
  process_attestations allowed_signers keys image_digest atts acc = Raise e →
  ∃ pre a post acc1,
    atts = pre ++ a :: post ∧
    process_attestations allowed_signers keys image_digest pre acc = Ok acc1 ∧
    process_attestation allowed_signers keys image_digest acc1 a = Raise e.
Proof.
  revert acc. induction atts as [|a atts IH]; intros acc; [done|].
  simpl. destruct (process_attestation _ _ _ acc a) as [acc1|e'] eqn:Hstep; simpl.
  - intros (pre & a' & post & acc2 & -> & Hpre & Ha')%IH.
    exists (a :: pre), a', post, acc2. simpl. by rewrite Hstep.
  - intros [= <-]. by exists [], a, atts, acc.
Qed.

Lemma final_checks_Raise (required : gset string) image_digest
    (log_ids : gset string) acc e :
  final_checks required image_digest log_ids acc = Raise e →
  (missing_subjects acc ≠ [] ∧
   e = GateError "subject digest mismatch" ERR_POLICY_DENIED
         [("expected", VStr image_digest);
          ("observed", VStrs (missing_subjects acc))]) ∨
  (missing_subjects acc = [] ∧
   missing_predicates required (seen_predicates acc) ≠ ∅ ∧
   e = GateError "missing required predicates" ERR_POLICY_DENIED
         [("missing", VStrs (sorted (missing_predicates required
                                       (seen_predicates acc))))]) ∨
  (missing_subjects acc = [] ∧ e = TypeError).
Proof.
  unfold final_checks. case_bool_decide as Hsub; simpl.
  2:{ intros [= <-]. by left. }
  case_bool_decide as Hmiss; simpl.
  2:{ intros [= <-]. right. by left. }
  unfold sorted_opt. repeat case_decide; simpl; try done.
  intros [= <-]. right. by right.
Qed.

(** Every exception of [verify_policy] comes from one of three places: the
    checks before the loop, one attestation of the loop, or the checks after
    it. *)
Lemma verify_policy_Raise (bundle : Bundle) (policy : Policy) trust_store
    image_digest e :
  verify_policy bundle policy trust_store image_digest = Raise e →
  (¬ passes_log_checks bundle policy trust_store ∧
   message_of e ∈ [None; Some "invalid mediaType"; Some "unsupported bundle version";
                   Some "attestations required"; Some "logEntries required";
                   Some "log quorum not satisfied"; Some "unknown log operator"]) ∨
  (∃ pre a post,
     reaches bundle policy trust_store pre a post ∧
     process_attestation (allowed_signers_of policy) (trust_store_keys trust_store)
       image_digest
       (mkAcc (observed_predicates (statements_of pre))
              (observed_signers (allowed_signers_of policy)
                                (trust_store_keys trust_store) pre)
              (observed_mismatches image_digest (statements_of pre))) a = Raise e) ∨
  (passes_log_checks bundle policy trust_store ∧
   Forall (passes_signer_validation policy trust_store) (attestations_of bundle) ∧
   final_checks (list_to_set (required_predicates_of policy)) image_digest
     (list_to_set (log_ids_of bundle))
     (mkAcc (observed_predicates (statements_of (attestations_of bundle)))
            (observed_signers (allowed_signers_of policy)
                              (trust_store_keys trust_store) (attestations_of bundle))
            (observed_mismatches image_digest
                                 (statements_of (attestations_of bundle)))) = Raise e).
Proof.
  intros Hraise.
  destruct (policy_requiredPredicates policy) as [required|] eqn:Hrequired.
  2:{ left. unfold verify_policy in Hraise. rewrite Hrequired in Hraise.
      injection Hraise as <-. split; [|set_solver].
      intros ([? ?] & _). congruence. }
  destruct (policy_allowedSigners policy) as [allowed|] eqn:Hallowed.
  2:{ left. unfold verify_policy in Hraise. rewrite Hrequired, Hallowed in Hraise.
      injection Hraise as <-. split; [|set_solver].
      intros (_ & [? ?] & _). congruence. }
  destruct (sanity_check_bundle bundle) as [[]|e'] eqn:Hsanity.
  2:{ left. unfold verify_policy in Hraise.
      rewrite Hrequired, Hallowed, Hsanity in Hraise. injection Hraise as <-.
      split; [intros (_ & _ & ? & _); congruence|].
      apply sanity_check_bundle_Raise in Hsanity as (_ & name & _ & Hin).
      apply list_elem_of_In in Hin. simpl in Hin.
      destruct Hin as [[= <- _]|[[= <- _]|[[= <- _]|[[= <- _]|[]]]]]; set_solver. }
  destruct (check_log_entries bundle trust_store (default 1%Z (policy_logQuorum policy)))
    as [s|e'] eqn:Hlogs.
  2:{ left. split.
      - intros Hpass. rewrite (check_log_entries_Ok _ _ _ Hpass) in Hlogs. done.
      - unfold verify_policy in Hraise.
        rewrite Hrequired, Hallowed, Hsanity in Hraise.
        cbn [subscript mbind result_bind] in Hraise. rewrite Hlogs in Hraise.
        injection Hraise as <-.
        apply check_log_entries_Raise in Hlogs. set_solver. }
  assert (passes_log_checks bundle policy trust_store) as Hpass.
  { apply check_log_entries_inv in Hlogs as (? & ? & ? & _); [|done].
    unfold passes_log_checks. rewrite Hrequired, Hallowed. eauto 10. }
  right. rewrite (verify_policy_reaches_loop _ _ _ _ Hpass) in Hraise.
  apply bind_Raise in Hraise as [Hloop|(acc & Hloop & Hfinal)].
  - left. apply process_attestations_Raise in Hloop
      as (pre & a & post & acc1 & Hatts & Hpre & Ha).
    apply process_attestations_valid in Hpre as [Hpre ->]. simpl in Ha.
    rewrite !(left_id_L ∅ (∪)) in Ha. exists pre, a, post. split; [|done].
    split; [done|]. split; [|done].
    unfold attestations_of in Hatts.
    apply sanity_check_bundle_Ok in Hsanity as (_ & _ & (a0 & l & Hitems) & _).
    rewrite Hitems in Hatts |- *. simpl in Hatts. by rewrite Hatts.
  - right. apply process_attestations_valid in Hloop as [Hvalid ->].
    simpl in Hfinal. by rewrite !(left_id_L ∅ (∪)) in Hfinal.
Qed.

End Evaluation.



(** * The properties of the specification *)

(** ** Quorum and log operators *)

(** C6. When the policy carries its two lists, the bundle passes the
    validator and every log entry has a [logId], a number of distinct
    [logId] values below [policy.logQuorum] (1 when the policy has no
    [logQuorum]) makes the evaluation deny with [ERR_POLICY_DENIED] and the
    details [{required, observed}].  Nothing is assumed of the attestations,
    of the keys of the trust store or of the image digest: the check comes
    before any attestation is looked at. *)
Theorem log_quorum_denial `{RT : Runtime} (bundle : Bundle) (policy : Policy)
    (trust_store : TrustStore) (image_digest : string) :
  is_Some (policy_requiredPredicates policy) →
  is_Some (policy_allowedSigners policy) →
  sanity_check_bundle bundle = Ok () →
  Forall (λ entry, is_Some (entry_logId entry)) (items (bundle_logEntries bundle)) →
  (Z.of_nat (length (distinct_log_ids bundle))
     < default 1 (policy_logQuorum policy))%Z →
  verify_policy bundle policy trust_store image_digest
    = Raise (GateError "log quorum not satisfied" "ERR_POLICY_DENIED"
               [("required", VInt (default 1%Z (policy_logQuorum policy)));
                ("observed", VInt (Z.of_nat (length (distinct_log_ids bundle))))]).
Proof.
  intros [required Hrequired] [allowed Hallowed] Hsanity Hids Hlt.
  unfold verify_policy. rewrite Hrequired, Hallowed, Hsanity.
  cbn [subscript mbind result_bind].
  by rewrite (check_log_entries_quorum _ _ _ Hsanity Hids Hlt).
Qed.

(** A quorum of 2 and two entries of the same log: [observed = 1],
    [required = 2], although the signature of the attestation is wrong. *)
Lemma log_quorum_denial_witness :
  verify_policy (RT := Demo.demo_runtime) Demo.bundle_one_log Demo.policy_quorum2 Demo.store Demo.image_ok
    = Raise (GateError "log quorum not satisfied" "ERR_POLICY_DENIED"
               [("required", VInt 2); ("observed", VInt 1)]).
Proof.
  apply (log_quorum_denial (RT := Demo.demo_runtime) Demo.bundle_one_log Demo.policy_quorum2
                           Demo.store Demo.image_ok).
  - by eexists.
  - by eexists.
  - reflexivity.
  - repeat constructor; by eexists.
  - vm_compute. reflexivity.
Defined.

(** C7. Past the quorum check, a [logId] of the bundle that is not a key of
    the [logs] of the trust store makes the evaluation deny with
    [ERR_POLICY_DENIED] and the details [{logId}], where [logId] is such an
    identifier of the bundle (the first one met in the iteration order of the
    set); and a report implies that every [logId] of the bundle is
    recognized. *)
Theorem unknown_log_operator_denial `{RT : Runtime} (bundle : Bundle)
    (policy : Policy) (trust_store : TrustStore) (image_digest : string) :
  (is_Some (policy_requiredPredicates policy) →
   is_Some (policy_allowedSigners policy) →
   sanity_check_bundle bundle = Ok () →
   Forall (λ entry, is_Some (entry_logId entry)) (items (bundle_logEntries bundle)) →
   (default 1 (policy_logQuorum policy)
      ≤ Z.of_nat (length (distinct_log_ids bundle)))%Z →
   Exists (λ log_id, recognized_log trust_store log_id = false) (log_ids_of bundle) →
   ∃ log_id,
     log_id ∈ log_ids_of bundle ∧
     recognized_log trust_store log_id = false ∧
     verify_policy bundle policy trust_store image_digest
       = Raise (GateError "unknown log operator" "ERR_POLICY_DENIED"
                  [("logId", VStr log_id)])) ∧
  (∀ report,
     verify_policy bundle policy trust_store image_digest = Ok report →
     Forall (λ entry, is_Some (entry_logId entry)) (items (bundle_logEntries bundle)) ∧
     Forall (λ log_id, recognized_log trust_store log_id = true) (log_ids_of bundle)).
Proof.
  split.
  - intros [required Hrequired] [allowed Hallowed] Hsanity Hids Hq Hex.
    destruct (check_log_entries_unknown _ trust_store _ Hsanity Hids Hq Hex)
      as (before & log_id & after & _ & _ & Hin & Hbad & Hlogs).
    exists log_id. split; [done|]. split; [done|].
    unfold verify_policy. rewrite Hrequired, Hallowed, Hsanity.
    cbn [subscript mbind result_bind]. by rewrite Hlogs.
  - intros report (Hpass & _)%verify_policy_Ok.
    by destruct Hpass as (_ & _ & _ & ? & _ & ?).
Qed.

(** The log [log-x] is not in the trust store. *)
Lemma unknown_log_operator_denial_witness :
  ∃ log_id,
    log_id ∈ log_ids_of Demo.bundle_unknown_log ∧
    recognized_log Demo.store log_id = false ∧
    verify_policy (RT := Demo.demo_runtime) Demo.bundle_unknown_log Demo.policy_k1 Demo.store Demo.image_ok
      = Raise (GateError "unknown log operator" "ERR_POLICY_DENIED"
                 [("logId", VStr log_id)]).
Proof.
  apply (unknown_log_operator_denial (RT := Demo.demo_runtime) Demo.bundle_unknown_log Demo.policy_k1
                                     Demo.store Demo.image_ok).
  - by eexists.
  - by eexists.
  - reflexivity.
  - repeat constructor; by eexists.
  - vm_compute. discriminate.
  - apply Exists_cons_tl, Exists_cons_hd. reflexivity.
Defined.

Example unknown_log_operator_example :
  verify_policy (RT := Demo.demo_runtime) Demo.bundle_unknown_log Demo.policy_k1 Demo.store Demo.image_ok
    = Raise (GateError "unknown log operator" "ERR_POLICY_DENIED"
               [("logId", VStr "log-x")]).
Proof. vm_compute. reflexivity. Qed.



(** ** Subject binding *)

(** The hypotheses of the theorems on the inputs of the examples are closed
    and decided by evaluation. *)
Ltac evaluate_log_checks :=
  repeat split; try (by eexists); try reflexivity;
  try (vm_compute; discriminate); repeat constructor; by eexists.

Ltac evaluate_signer_validation :=
  repeat constructor; try (by eexists); vm_compute; reflexivity.

(** C5, as the code has it.  When the evaluation has got through the log
    checks and every attestation of the bundle passes signer validation, a
    subject that carries a non-empty sha256 digest whose [sha256:<digest>]
    form differs from the image digest makes the evaluation deny with
    [ERR_POLICY_DENIED] and the details [{expected, observed}], [observed]
    being the list of the mismatched non-empty digests in the order of the
    bundle; a subject without digest or with an empty one is not checked.
    Conversely this denial is only ever raised when every attestation has
    passed signer validation. *)
Theorem subject_digest_mismatch_denial `{RT : Runtime} (bundle : Bundle)
    (policy : Policy) (trust_store : TrustStore) (image_digest : string) :
  (passes_log_checks bundle policy trust_store →
   Forall (passes_signer_validation policy trust_store) (attestations_of bundle) →
   observed_mismatches image_digest (statements_of (attestations_of bundle)) ≠ [] →
   verify_policy bundle policy trust_store image_digest
     = Raise (GateError "subject digest mismatch" "ERR_POLICY_DENIED"
                [("expected", VStr image_digest);
                 ("observed",
                  VStrs (observed_mismatches image_digest
                           (statements_of (attestations_of bundle))))])) ∧
  (∀ error_id details,
     verify_policy bundle policy trust_store image_digest
       = Raise (GateError "subject digest mismatch" error_id details) →
     passes_log_checks bundle policy trust_store ∧
     Forall (passes_signer_validation policy trust_store) (attestations_of bundle) ∧
     observed_mismatches image_digest (statements_of (attestations_of bundle)) ≠ []).
Proof.
  split.
  - intros Hpass Hvalid Hmis.
    rewrite (verify_policy_reaches_loop _ _ _ _ Hpass).
    assert (process_attestations (allowed_signers_of policy)
              (trust_store_keys trust_store) image_digest (attestations_of bundle)
              (mkAcc ∅ ∅ [])
            = Ok (mkAcc (∅ ∪ observed_predicates (statements_of (attestations_of bundle)))
                        (∅ ∪ observed_signers (allowed_signers_of policy)
                               (trust_store_keys trust_store) (attestations_of bundle))
                        ([] ++ observed_mismatches image_digest
                                 (statements_of (attestations_of bundle))))) as ->
      by by apply process_attestations_valid.
    cbn [mbind result_bind]. unfold final_checks. simpl.
    by rewrite bool_decide_false.
  - intros error_id details
      [[_ Hmsg]|[(pre & a & post & _ & Ha)|(Hpass & Hvalid & Hfinal)]]%verify_policy_Raise.
    + apply list_elem_of_In in Hmsg. simpl in Hmsg. naive_solver.
    + apply process_attestation_Raise in Ha as [[? _]|(_ & _ & ?)]; done.
    + apply final_checks_Raise in Hfinal as [[? _]|[(_ & _ & ?)|[_ ?]]]; done.
Qed.

(** Two signer-valid attestations, the second about another image. *)
Lemma subject_digest_mismatch_denial_witness :
  verify_policy (RT := Demo.demo_runtime)
      Demo.bundle_two Demo.policy_k1k2 Demo.store Demo.image_ok
    = Raise (GateError "subject digest mismatch" "ERR_POLICY_DENIED"
               [("expected", VStr "sha256:aa11"); ("observed", VStrs ["bb22"])]).
Proof.
  apply (subject_digest_mismatch_denial (RT := Demo.demo_runtime)
           Demo.bundle_two Demo.policy_k1k2 Demo.store Demo.image_ok).
  - evaluate_log_checks.
  - evaluate_signer_validation.
  - vm_compute. discriminate.
Defined.

(** The claim without the restriction to non-empty digests fails: the only
    attestation of the bundle passes signer validation, its subject carries
    the sha256 digest [""], whose form [sha256:] differs from the image
    digest, and the evaluation returns a report. *)
Lemma subject_digest_mismatch_counterexample :
  Forall (passes_signer_validation (RT := Samples.lenient_runtime)
            Samples.policy_none Demo.store)
         (attestations_of Samples.bundle_untyped) ∧
  (∃ a statement subject,
     a ∈ attestations_of Samples.bundle_untyped ∧
     statement_of (RT := Samples.lenient_runtime) a = Some statement ∧
     subject ∈ default [] (st_subject statement) ∧
     subject_digest subject ≫= digest_sha256 = Some "" ∧
     "sha256:" +:+ "" ≠ Demo.image_other) ∧
  verify_policy (RT := Samples.lenient_runtime)
      Samples.bundle_untyped Samples.policy_none Demo.store Demo.image_other
    = Ok (mkReport [None] ["k1"] ["log-a"]).
Proof.
  split; [evaluate_signer_validation|]. split; [|vm_compute; reflexivity].
  exists (Demo.att Demo.payload_untyped [Demo.signed_by "k1" Demo.sig_1]),
         Demo.st_untyped, (Demo.subject_of "").
  split; [vm_compute; set_solver|]. split; [vm_compute; reflexivity|].
  split; [vm_compute; set_solver|]. split; [reflexivity|]. vm_compute. discriminate.
Qed.

(** The scenario of the specification with another image digest. *)
Example subject_digest_mismatch_scenario :
  verify_policy (RT := Demo.demo_runtime)
      Demo.bundle_ok Demo.policy_k1 Demo.store Demo.image_other
    = Raise (GateError "subject digest mismatch" "ERR_POLICY_DENIED"
               [("expected", VStr "sha256:ffff"); ("observed", VStrs ["aa11"])]).
Proof. vm_compute. reflexivity. Qed.

(** ** Required predicates *)

(** C4. A report is returned only if every required predicate is the
    predicate type of the statement of an attestation of the bundle that is
    signer-valid; a bundle that misses a required predicate never gets a
    report; and when such a bundle gets through the log checks, the signer
    validation of every attestation and the subject binding, the evaluation
    denies with [ERR_POLICY_DENIED] and [details.missing] the sorted list,
    without repetition, of exactly the required predicates that were not
    observed. *)
Theorem required_predicates_coverage `{RT : Runtime} (bundle : Bundle)
    (policy : Policy) (trust_store : TrustStore) (image_digest : string) :
  let observed := observed_predicates (statements_of (attestations_of bundle)) in
  (∀ report,
     verify_policy bundle policy trust_store image_digest = Ok report →
     ∀ p, p ∈ required_predicates_of policy →
       ∃ a statement,
         a ∈ attestations_of bundle ∧
         statement_of a = Some statement ∧
         st_predicateType statement = Some p ∧
         signer_valid (allowed_signers_of policy) (trust_store_keys trust_store) a) ∧
  ((∃ p, p ∈ required_predicates_of policy ∧ Some p ∉ observed) →
   ∀ report, verify_policy bundle policy trust_store image_digest ≠ Ok report) ∧
  (passes_log_checks bundle policy trust_store →
   Forall (passes_signer_validation policy trust_store) (attestations_of bundle) →
   observed_mismatches image_digest (statements_of (attestations_of bundle)) = [] →
   (∃ p, p ∈ required_predicates_of policy ∧ Some p ∉ observed) →
   ∃ missing,
     verify_policy bundle policy trust_store image_digest
       = Raise (GateError "missing required predicates" "ERR_POLICY_DENIED"
                  [("missing", VStrs missing)]) ∧
     Sorted String.le missing ∧ NoDup missing ∧
     ∀ p, p ∈ missing ↔ p ∈ required_predicates_of policy ∧ Some p ∉ observed).
Proof.
  intros observed. subst observed. split; [|split].
  - intros report (_ & Hvalid & _ & Hreq & _)%verify_policy_Ok p Hp.
    specialize (Hreq p Hp). unfold observed_predicates in Hreq.
    apply elem_of_list_to_set, list_elem_of_fmap in Hreq as (st & Hpt & Hst).
    apply list_elem_of_omap in Hst as (a & Ha & Hast).
    exists a, st. rewrite Forall_forall in Hvalid.
    destruct (Hvalid a Ha) as [_ ?]. done.
  - intros (p & Hp & Hn) report (_ & _ & _ & Hreq & _)%verify_policy_Ok.
    by apply Hn, Hreq.
  - intros Hpass Hvalid Hmis (p & Hp & Hn).
    exists (sorted (missing_predicates (list_to_set (required_predicates_of policy))
                      (observed_predicates (statements_of (attestations_of bundle))))).
    split; [|split; [apply sorted_Sorted|split; [apply sorted_NoDup|]]].
    + rewrite (verify_policy_reaches_loop _ _ _ _ Hpass).
      assert (process_attestations (allowed_signers_of policy)
                (trust_store_keys trust_store) image_digest (attestations_of bundle)
                (mkAcc ∅ ∅ [])
              = Ok (mkAcc (∅ ∪ observed_predicates (statements_of (attestations_of bundle)))
                          (∅ ∪ observed_signers (allowed_signers_of policy)
                                 (trust_store_keys trust_store) (attestations_of bundle))
                          ([] ++ observed_mismatches image_digest
                                   (statements_of (attestations_of bundle))))) as ->
        by by apply process_attestations_valid.
      cbn [mbind result_bind]. unfold final_checks. simpl.
      rewrite bool_decide_true by done. simpl. rewrite (left_id_L ∅ (∪)).
      rewrite bool_decide_false; [done|].
      rewrite missing_predicates_empty. intros Hall. apply Hn, Hall.
      by apply elem_of_list_to_set.
    + intros q. rewrite elem_of_sorted, elem_of_missing_predicates.
      by rewrite elem_of_list_to_set.
Qed.

(** The scenario of the specification under a policy that also requires
    [sbom] and [vuln-scan]. *)
Lemma required_predicates_coverage_witness :
  ∃ missing,
    verify_policy (RT := Demo.demo_runtime)
        Demo.bundle_ok Demo.policy_many Demo.store Demo.image_ok
      = Raise (GateError "missing required predicates" "ERR_POLICY_DENIED"
                 [("missing", VStrs missing)]) ∧
    Sorted String.le missing ∧ NoDup missing ∧
    ∀ p, p ∈ missing ↔
         p ∈ required_predicates_of Demo.policy_many ∧
         Some p ∉ observed_predicates
                    (statements_of (RT := Demo.demo_runtime)
                                   (attestations_of Demo.bundle_ok)).
Proof.
  apply (required_predicates_coverage (RT := Demo.demo_runtime)
           Demo.bundle_ok Demo.policy_many Demo.store Demo.image_ok).
  - evaluate_log_checks.
  - evaluate_signer_validation.
  - vm_compute. reflexivity.
  - exists "sbom". split; [set_solver|]. vm_compute. set_solver.
Defined.

Example required_predicates_example :
  verify_policy (RT := Demo.demo_runtime)
      Demo.bundle_ok Demo.policy_many Demo.store Demo.image_ok
    = Raise (GateError "missing required predicates" "ERR_POLICY_DENIED"
               [("missing", VStrs ["sbom"; "vuln-scan"])]).
Proof. vm_compute. reflexivity. Qed.

(** ** The signers of a report *)

Lemma first_match_Some allowed_signers keys (sigs : list Signature) i s :
  first_match allowed_signers keys sigs = Some (i, s) ↔
  sigs !! i = Some s ∧
  allowed_and_resolvable allowed_signers keys s ∧
  ∀ j s', sigs !! j = Some s' → (j < i)%nat →
          ¬ allowed_and_resolvable allowed_signers keys s'.
Proof. apply list_find_Some. Qed.

Lemma elem_of_keyids (sigs : list Signature) (k : string) :
  k ∈ keyids sigs ↔ k ≠ "" ∧ ∃ s, s ∈ sigs ∧ sig_keyid s = Some k.
Proof. unfold keyids. by rewrite list_elem_of_filter, list_elem_of_omap. Qed.

(** C10. The [signers] of a report are sorted, without repetition, and are
    exactly the non-empty key ids of the signatures that, in some attestation
    of the bundle, stand at or before the first signature from an allowed,
    resolvable signer, which is the one that verified.  The bundle
    [Demo.bundle_signers] shows both consequences: [zz], which the policy
    does not allow, is reported because its signature precedes the valid one
    of [k1]; [k2], allowed and with a valid signature, is not reported
    because its signature follows it. *)
Theorem report_signers :
  (∀ (RT : Runtime) (bundle : Bundle) (policy : Policy) (trust_store : TrustStore)
     (image_digest : string) (report : Report),
     verify_policy bundle policy trust_store image_digest = Ok report →
     Sorted String.le (signers report) ∧
     NoDup (signers report) ∧
     ∀ k, k ∈ signers report ↔
          k ≠ "" ∧
          ∃ a i verified j s,
            a ∈ attestations_of bundle ∧
            first_match (allowed_signers_of policy) (trust_store_keys trust_store)
                        (signatures_of a) = Some (i, verified) ∧
            signature_verifies (trust_store_keys trust_store) a verified ∧
            (j ≤ i)%nat ∧
            signatures_of a !! j = Some s ∧
            sig_keyid s = Some k) ∧
  (∃ report,
     verify_policy (RT := Demo.demo_runtime) Demo.bundle_signers Demo.policy_k1k2
                   Demo.store Demo.image_ok = Ok report ∧
     signers report = ["k1"; "zz"] ∧
     ("zz" ∉ allowed_signers_of Demo.policy_k1k2) ∧
     "k2" ∈ allowed_signers_of Demo.policy_k1k2 ∧
     Demo.signed_by "k2" Demo.sig_2
       ∈ (attestations_of Demo.bundle_signers ≫= signatures_of)).
Proof.
  split.
  - intros RT bundle policy trust_store image_digest report
      (_ & Hvalid & _ & _ & l & _ & ->)%verify_policy_Ok. simpl.
    split; [apply sorted_Sorted|]. split; [apply sorted_NoDup|].
    intros k. rewrite elem_of_sorted. unfold observed_signers.
    rewrite elem_of_list_to_set, list_elem_of_bind.
    rewrite Forall_forall in Hvalid. split.
    + intros (a & (Hk & s & Hs & Hsk)%elem_of_keyids & Ha).
      split; [done|]. destruct (Hvalid a Ha) as [_ Hsv].
      unfold signer_valid, scanned in *.
      destruct (first_match _ _ (signatures_of a)) as [[i v]|] eqn:Hfind; [|done].
      apply elem_of_take in Hs as (j & Hj & Hlt).
      exists a, i, v, j, s. repeat split; try done. lia.
    + intros (Hk & a & i & v & j & s & Ha & Hfind & _ & Hle & Hj & Hsk).
      exists a. split; [|done]. apply elem_of_keyids. split; [done|].
      exists s. split; [|done]. unfold scanned. rewrite Hfind.
      apply elem_of_take. exists j. split; [done|lia].
  - eexists. split; [vm_compute; reflexivity|]. simpl.
    split; [done|]. split; [vm_compute; set_solver|].
    split; [vm_compute; set_solver|]. vm_compute. set_solver.
Qed.

(** The report of [Demo.bundle_signers]. *)
Lemma report_signers_witness :
  Sorted String.le ["k1"; "zz"] ∧
  NoDup ["k1"; "zz"] ∧
  ∀ k, k ∈ ["k1"; "zz"] ↔
       k ≠ "" ∧
       ∃ a i verified j s,
         a ∈ attestations_of Demo.bundle_signers ∧
         first_match (allowed_signers_of Demo.policy_k1k2)
                     (trust_store_keys Demo.store) (signatures_of a)
           = Some (i, verified) ∧
         signature_verifies (RT := Demo.demo_runtime)
                            (trust_store_keys Demo.store) a verified ∧
         (j ≤ i)%nat ∧
         signatures_of a !! j = Some s ∧
         sig_keyid s = Some k.
Proof.
  apply (proj1 report_signers Demo.demo_runtime Demo.bundle_signers
               Demo.policy_k1k2 Demo.store Demo.image_ok
               (mkReport [Some "provenance"] ["k1"; "zz"] ["log-a"])).
  vm_compute. reflexivity.
Defined.



(** ** Failures of the decoders and of the signature verifier

    [verify_policy] calls [decode_statement] and [verify_signature] without
    handling their exceptions: what these two functions raise leaves the
    evaluation as it is.  The evaluation fails closed, with an exception that
    is not a [GateError] and so carries no error identifier. *)

Lemma not_gate_error_no_id (e : exn) :
  is_gate_error e = false → error_id_of e = None.
Proof. by destruct e. Qed.

(** C1, as the code has it.  The evaluation gets to an attestation whose
    statement decodes and whose first signature from an allowed, resolvable
    signer makes [verify_signature] raise [e]: the evaluation raises this
    [e] and returns no report.  [e] is the exception [base64.b64decode]
    raises on the key, the one it raises on the signature once the key is
    decoded, or, when both decode, [CalledProcessError] for an [openssl]
    process that exits with a status other than 0 (it rejects the key or
    the signature) or the exception of the files or of the process that
    could not be started; it is not a [GateError] and carries no error
    identifier. *)
Theorem signature_failure_escapes `{RT : Runtime} (bundle : Bundle)
    (policy : Policy) (trust_store : TrustStore) (image_digest : string)
    (pre : list Attestation) (a : Attestation) (post : list Attestation)
    (i : nat) (s : Signature) (pub_key_b64 payload_b64 signature_b64 : string)
    (e : exn) :
  reaches bundle policy trust_store pre a post →
  is_Some (statement_of a) →
  first_match (allowed_signers_of policy) (trust_store_keys trust_store)
              (signatures_of a) = Some (i, s) →
  sig_keyid s ≫= (trust_store_keys trust_store !!.) = Some pub_key_b64 →
  att_payload a = Some payload_b64 →
  sig_sig s = Some signature_b64 →
  verify_signature pub_key_b64 payload_b64 signature_b64 = Raise e →
  verify_policy bundle policy trust_store image_digest = Raise e ∧
  is_gate_error e = false ∧
  error_id_of e = None ∧
  (b64decode pub_key_b64 = Raise e ∨
   (∃ pub_der, b64decode pub_key_b64 = Ok pub_der ∧
               b64decode signature_b64 = Raise e) ∨
   ∃ pub_der signature,
     b64decode pub_key_b64 = Ok pub_der ∧
     b64decode signature_b64 = Ok signature ∧
     (openssl_verify pub_der signature (dsse_pae PAYLOAD_TYPE payload_b64)
        = Ok false ∧ e = CalledProcessError ∨
      openssl_verify pub_der signature (dsse_pae PAYLOAD_TYPE payload_b64)
        = Raise e)).
Proof.
  intros Hreach [st Hst] Hfind Hpk Hpayload Hsig Hverify. split.
  - apply (verify_policy_raise_at _ _ _ _ _ _ _ _ Hreach).
    rewrite (process_attestation_decoded _ _ _ _ _ _ Hst).
    cbn [seen_signers seen_predicates missing_subjects].
    destruct (scan_signatures_match _ _ a _
                (observed_signers (allowed_signers_of policy)
                                  (trust_store_keys trust_store) pre) _ _ Hfind)
      as (pk & Hpk' & ->).
    rewrite Hpk in Hpk'. injection Hpk' as <-.
    rewrite Hpayload, Hsig. simpl. by rewrite Hverify.
  - pose proof (verify_signature_never_gate_error _ _ _ _ Hverify) as Hgate.
    split; [done|]. split; [by apply not_gate_error_no_id|].
    by apply verify_signature_Raise.
Qed.

(** A signature of the allowed signer [k1] that is not the right one. *)
Lemma signature_failure_escapes_witness :
  verify_policy (RT := Demo.demo_runtime)
      (Demo.bundle_signed Demo.payload_provenance "k1" Demo.sig_bad)
      Demo.policy_k1 Demo.store Demo.image_ok = Raise CalledProcessError ∧
  error_id_of CalledProcessError = None.
Proof.
  destruct (signature_failure_escapes (RT := Demo.demo_runtime)
           (Demo.bundle_signed Demo.payload_provenance "k1" Demo.sig_bad)
           Demo.policy_k1 Demo.store Demo.image_ok
           [] (Demo.att Demo.payload_provenance [Demo.signed_by "k1" Demo.sig_bad]) []
           0 (Demo.signed_by "k1" Demo.sig_bad)
           Demo.pub_k1 Demo.payload_provenance Demo.sig_bad CalledProcessError)
    as (Hraise & _ & Hid & _).
  - split; [evaluate_log_checks|]. split; [reflexivity|constructor].
  - by eexists.
  - vm_compute. reflexivity.
  - vm_compute. reflexivity.
  - reflexivity.
  - reflexivity.
  - vm_compute. reflexivity.
  - split; [exact Hraise|exact Hid].
Defined.

(** The signature check of the attestation fails, and the evaluation does
    not end with a denial that carries [ERR_POLICY_DENIED]. *)
Lemma signature_failure_counterexample :
  verify_signature (RT := Demo.demo_runtime)
      Demo.pub_k1 Demo.payload_provenance Demo.sig_bad = Raise CalledProcessError ∧
  ¬ ∃ message details,
      verify_policy (RT := Demo.demo_runtime)
          (Demo.bundle_signed Demo.payload_provenance "k1" Demo.sig_bad)
          Demo.policy_k1 Demo.store Demo.image_ok
        = Raise (GateError message "ERR_POLICY_DENIED" details).
Proof.
  split; [vm_compute; reflexivity|].
  intros (message & details & Hraise). vm_compute in Hraise. discriminate.
Qed.

(** The other failures of the signature check: a payload changed by one byte
    after signing, a signature that is not base64, a signature that is not
    ASCII, a key that is not a key, a key that is not base64. *)
Example signature_failure_examples :
  let run bundle policy :=
    verify_policy (RT := Demo.demo_runtime) bundle policy Demo.store Demo.image_ok in
  run (Demo.bundle_signed Demo.payload_tampered "k1" Demo.sig_1) Demo.policy_k1
    = Raise CalledProcessError ∧
  run (Demo.bundle_signed Demo.payload_provenance "k1" "abc") Demo.policy_k1
    = Raise BinasciiError ∧
  run (Demo.bundle_signed Demo.payload_provenance "k1" Demo.text_not_ascii)
      Demo.policy_k1
    = Raise ValueError ∧
  run (Demo.bundle_signed Demo.payload_provenance "k3" Demo.sig_1) Demo.policy_staging
    = Raise CalledProcessError ∧
  run (Demo.bundle_signed Demo.payload_provenance "k4" Demo.sig_1) Demo.policy_staging
    = Raise BinasciiError.
Proof. vm_compute. repeat split. Qed.

(** C2, as the code has it.  The evaluation gets to an attestation whose
    payload makes [decode_statement] raise [e]: the attestation is not
    skipped, the evaluation raises this [e] and returns no report.  [e] is
    the [KeyError] of a missing payload, the exception [base64.b64decode]
    raises on the payload, the [UnicodeDecodeError] of the decoded bytes, or
    the exception [json.loads] raises on the decoded text; it is not a
    [GateError] and carries no error identifier. *)
Theorem undecodable_payload_escapes `{RT : Runtime} (bundle : Bundle)
    (policy : Policy) (trust_store : TrustStore) (image_digest : string)
    (pre : list Attestation) (a : Attestation) (post : list Attestation)
    (e : exn) :
  reaches bundle policy trust_store pre a post →
  decode_statement a = Raise e →
  verify_policy bundle policy trust_store image_digest = Raise e ∧
  is_gate_error e = false ∧
  error_id_of e = None ∧
  (att_payload a = None ∧ e = KeyError "payload" ∨
   ∃ payload_b64, att_payload a = Some payload_b64 ∧
     (b64decode payload_b64 = Raise e ∨
      ∃ raw, b64decode payload_b64 = Ok raw ∧
        (decode_utf8 raw = None ∧ e = UnicodeDecodeError ∨
         ∃ text, decode_utf8 raw = Some text ∧ json_loads text = Raise e))).
Proof.
  intros Hreach Hdecode. split.
  - apply (verify_policy_raise_at _ _ _ _ _ _ _ _ Hreach).
    unfold process_attestation. by rewrite Hdecode.
  - pose proof (decode_statement_never_gate_error _ _ Hdecode) as Hgate.
    split; [done|]. split; [by apply not_gate_error_no_id|].
    by apply decode_statement_Raise.
Qed.

(** A truncated JSON text. *)
Lemma undecodable_payload_escapes_witness :
  verify_policy (RT := Demo.demo_runtime)
      (Demo.bundle_signed Demo.payload_truncated "k1" Demo.sig_1)
      Demo.policy_k1 Demo.store Demo.image_ok = Raise JSONDecodeError ∧
  is_gate_error JSONDecodeError = false ∧
  error_id_of JSONDecodeError = None.
Proof.
  destruct (undecodable_payload_escapes (RT := Demo.demo_runtime)
           (Demo.bundle_signed Demo.payload_truncated "k1" Demo.sig_1)
           Demo.policy_k1 Demo.store Demo.image_ok
           [] (Demo.att Demo.payload_truncated [Demo.signed_by "k1" Demo.sig_1]) []
           JSONDecodeError)
    as (Hraise & Hgate & Hid & _).
  - split; [evaluate_log_checks|]. split; [reflexivity|constructor].
  - vm_compute. reflexivity.
  - split; [exact Hraise|]. split; [exact Hgate|exact Hid].
Defined.

(** The payload is not base64, and the evaluation does not end with a denial
    that carries [ERR_POLICY_DENIED]. *)
Lemma undecodable_payload_counterexample :
  decode_statement (RT := Demo.demo_runtime)
      (Demo.att Demo.payload_not_base64 [Demo.signed_by "k1" Demo.sig_1])
    = Raise BinasciiError ∧
  ¬ ∃ message details,
      verify_policy (RT := Demo.demo_runtime)
          (Demo.bundle_signed Demo.payload_not_base64 "k1" Demo.sig_1)
          Demo.policy_k1 Demo.store Demo.image_ok
        = Raise (GateError message "ERR_POLICY_DENIED" details).
Proof.
  split; [vm_compute; reflexivity|].
  intros (message & details & Hraise). vm_compute in Hraise. discriminate.
Qed.

(** A payload that is not ASCII, bytes that are not UTF-8, a truncated JSON
    text, and a JSON text that is not an object. *)
Example undecodable_payload_examples :
  let run payload :=
    verify_policy (RT := Demo.demo_runtime)
      (Demo.bundle_signed payload "k1" Demo.sig_1)
      Demo.policy_k1 Demo.store Demo.image_ok in
  run Demo.payload_not_base64 = Raise BinasciiError ∧
  run Demo.text_not_ascii = Raise ValueError ∧
  run Demo.payload_not_utf8 = Raise UnicodeDecodeError ∧
  run Demo.payload_truncated = Raise JSONDecodeError ∧
  run Demo.payload_array = Raise AttributeError.
Proof. vm_compute. repeat split. Qed.

(** ** Signer validation *)

Lemma observed_signers_snoc allowed_signers keys (pre : list Attestation) a :
  observed_signers allowed_signers keys (pre ++ [a])
    = observed_signers allowed_signers keys pre
      ∪ list_to_set (keyids (scanned allowed_signers keys (signatures_of a))).
Proof.
  unfold observed_signers. rewrite bind_app, list_to_set_app_L. simpl.
  by rewrite app_nil_r.
Qed.

(** C3, as the code has it.  The evaluation gets to an attestation, in
    bundle order, whose statement decodes, and scans its signatures in order,
    recording the non-empty key ids.
    - When no signature is from an allowed, resolvable signer, the evaluation
      denies with [ERR_POLICY_DENIED] and the details [{allowed, seen}],
      whatever the digests, the predicates and the attestations that follow.
    - When the first signature from such a signer verifies, the scan stops
      there: the loop goes on with the key ids recorded up to and including
      that signature, and what follows it in the list is not looked at.
    - When it does not verify, the exception of the verifier ends the
      evaluation: no later signature is tried and the exception is not a
      [GateError]. *)
Theorem signer_validation_outcomes `{RT : Runtime} (bundle : Bundle)
    (policy : Policy) (trust_store : TrustStore) (image_digest : string)
    (pre : list Attestation) (a : Attestation) (post : list Attestation) :
  reaches bundle policy trust_store pre a post →
  is_Some (statement_of a) →
  let allowed_signers := allowed_signers_of policy in
  let keys := trust_store_keys trust_store in
  (first_match allowed_signers keys (signatures_of a) = None →
   verify_policy bundle policy trust_store image_digest
     = Raise (GateError "no valid signature for allowed signer" "ERR_POLICY_DENIED"
                [("allowed", VStrs (sorted allowed_signers));
                 ("seen",
                  VStrs (sorted (observed_signers allowed_signers keys pre
                                 ∪ list_to_set (keyids (signatures_of a)))))])) ∧
  (∀ i s,
     first_match allowed_signers keys (signatures_of a) = Some (i, s) →
     signature_verifies keys a s →
     process_attestations allowed_signers keys image_digest (pre ++ [a])
                          (mkAcc ∅ ∅ [])
       = Ok (mkAcc (observed_predicates (statements_of (pre ++ [a])))
                   (observed_signers allowed_signers keys pre
                    ∪ list_to_set (keyids (take (S i) (signatures_of a))))
                   (observed_mismatches image_digest (statements_of (pre ++ [a]))))) ∧
  (∀ i s,
     first_match allowed_signers keys (signatures_of a) = Some (i, s) →
     ¬ signature_verifies keys a s →
     ∃ e, verify_policy bundle policy trust_store image_digest = Raise e ∧
          is_gate_error e = false).
Proof.
  intros Hreach [st Hst] allowed_signers keys. subst allowed_signers keys.
  split; [|split].
  - intros Hnone. apply (verify_policy_raise_at _ _ _ _ _ _ _ _ Hreach).
    by rewrite (process_attestation_no_match _ _ _ _ _ _ Hst Hnone).
  - intros i s Hfind Hverifies. apply process_attestations_valid.
    destruct Hreach as (_ & _ & Hpre). split.
    + apply Forall_app. split; [done|]. constructor; [|constructor].
      split; [by eexists|]. unfold signer_valid. by rewrite Hfind.
    + simpl. rewrite !(left_id_L ∅ (∪)), observed_signers_snoc.
      unfold scanned. by rewrite Hfind.
  - intros i s Hfind Hbad.
    destruct (process_attestation_unverified _ _ image_digest
                (mkAcc (observed_predicates (statements_of pre))
                       (observed_signers (allowed_signers_of policy)
                                         (trust_store_keys trust_store) pre)
                       (observed_mismatches image_digest (statements_of pre)))
                _ _ _ _ Hst Hfind Hbad) as (e & He & Hng).
    exists e. split; [|done]. by apply (verify_policy_raise_at _ _ _ _ _ _ _ _ Hreach).
Qed.

(** A signature of a signer that is not allowed: the denial lists it. *)
Lemma signer_validation_outcomes_witness :
  verify_policy (RT := Demo.demo_runtime)
      (Demo.bundle_signed Demo.payload_provenance "zz" Demo.sig_1)
      Demo.policy_k1 Demo.store Demo.image_ok
    = Raise (GateError "no valid signature for allowed signer" "ERR_POLICY_DENIED"
               [("allowed", VStrs ["k1"]); ("seen", VStrs ["zz"])]).
Proof.
  apply (signer_validation_outcomes (RT := Demo.demo_runtime)
           (Demo.bundle_signed Demo.payload_provenance "zz" Demo.sig_1)
           Demo.policy_k1 Demo.store Demo.image_ok
           [] (Demo.att Demo.payload_provenance [Demo.signed_by "zz" Demo.sig_1]) []).
  - split; [evaluate_log_checks|]. split; [reflexivity|constructor].
  - by eexists.
  - vm_compute. reflexivity.
Defined.

(** No signature of the attestation validates: the first is from a signer
    that is not allowed, the second is a wrong signature of [k1].  The
    evaluation does not end with a denial that carries [ERR_POLICY_DENIED]. *)
Lemma signer_validation_counterexample :
  ¬ signer_valid (RT := Demo.demo_runtime)
      (allowed_signers_of Demo.policy_k1) (trust_store_keys Demo.store)
      (Demo.att Demo.payload_provenance
         [Demo.signed_by "zz" Demo.sig_1; Demo.signed_by "k1" Demo.sig_bad]) ∧
  ¬ ∃ message details,
      verify_policy (RT := Demo.demo_runtime)
          Demo.bundle_none_valid Demo.policy_k1 Demo.store Demo.image_ok
        = Raise (GateError message "ERR_POLICY_DENIED" details).
Proof.
  split.
  - vm_compute. intros [=].
  - intros (message & details & Hraise). vm_compute in Hraise. discriminate.
Qed.

Example signer_validation_examples :
  let run bundle policy :=
    verify_policy (RT := Demo.demo_runtime) bundle policy Demo.store Demo.image_ok in
  run Demo.bundle_none_valid Demo.policy_k1 = Raise CalledProcessError ∧
  run Demo.bundle_second_valid Demo.policy_k1k2 = Raise CalledProcessError ∧
  run Demo.bundle_signers Demo.policy_k1k2
    = Ok (mkReport [Some "provenance"] ["k1"; "zz"] ["log-a"]).
Proof. vm_compute. repeat split. Qed.

(** The admission scenario of the specification. *)
Example admission_scenario :
  verify_policy (RT := Demo.demo_runtime)
      Demo.bundle_ok Demo.policy_k1 Demo.store Demo.image_ok
    = Ok (mkReport [Some "provenance"] ["k1"] ["log-a"]).
Proof. vm_compute. reflexivity. Qed.

(** * Further properties of the code *)

(** ** The message authenticator is unambiguous *)

Lemma encode_inj (s1 s2 : string) : encode s1 = encode s2 → s1 = s2.
Proof.
  unfold encode. intros Heq.
  rewrite <- (string_of_list_byte_of_string s1), <- (string_of_list_byte_of_string s2).
  by rewrite Heq.
Qed.

Lemma encode_space : encode " " = [space].
Proof. reflexivity. Qed.

Lemma encode_uint_no_space (d : Decimal.uint) :
  Forall (λ b, b ≠ space) (encode (NilEmpty.string_of_uint d)).
Proof.
  induction d; simpl; [constructor|..]; (constructor; [by intros [=]|done]).
Qed.

Lemma encode_str_of_nat_no_space (n : nat) :
  Forall (λ b, b ≠ space) (encode (str_of_nat n)).
Proof.
  unfold str_of_nat, NilZero.string_of_uint.
  destruct (Nat.to_uint n) eqn:Hd;
    [repeat constructor; by intros [=]|rewrite <- Hd; apply encode_uint_no_space..].
Qed.

Lemma str_of_nat_inj (n m : nat) : str_of_nat n = str_of_nat m → n = m.
Proof.
  intros Heq. pose proof (decimal_value_str_of_nat n) as Hn.
  rewrite Heq, decimal_value_str_of_nat in Hn. congruence.
Qed.

(** Two sequences free of spaces that are followed by a space end at the same
    place. *)
Lemma split_at_space (d1 d2 r1 r2 : bytes) :
  Forall (λ b, b ≠ space) d1 → Forall (λ b, b ≠ space) d2 →
  d1 ++ space :: r1 = d2 ++ space :: r2 → d1 = d2 ∧ r1 = r2.
Proof.
  intros H1. revert d2. induction H1 as [|b d1 Hb _ IH]; intros d2 H2 Heq.
  - destruct H2 as [|b' d2 Hb' _]; simpl in *; [by injection Heq|].
    injection Heq as <- _. done.
  - destruct H2 as [|b' d2 Hb' H2]; simpl in *.
    + injection Heq as -> _. done.
    + injection Heq as -> Heq. by destruct (IH d2 H2 Heq) as [-> ->].
Qed.

(** A record [len SP field] followed by anything determines the field. *)
Lemma enc_app_inj (x1 x2 r1 r2 : bytes) :
  enc x1 ++ r1 = enc x2 ++ r2 → x1 = x2 ∧ r1 = r2.
Proof.
  unfold enc. rewrite encode_space, <- !(assoc_L (++)). simpl.
  intros [Hlen Hrest]%split_at_space; try apply encode_str_of_nat_no_space.
  apply encode_inj, str_of_nat_inj in Hlen.
  by apply app_inj_1 in Hrest.
Qed.

(** X1. [dsse_pae] is injective: the bytes that are signed determine both the
    payload type and the payload, so a signature over one pair is never a
    signature over another. *)
Theorem dsse_pae_inj (payload_type1 payload_b64_1 payload_type2 payload_b64_2 : string) :
  dsse_pae payload_type1 payload_b64_1 = dsse_pae payload_type2 payload_b64_2 →
  payload_type1 = payload_type2 ∧ payload_b64_1 = payload_b64_2.
Proof.
  unfold dsse_pae. intros Heq. apply app_inv_head in Heq.
  apply enc_app_inj in Heq as [Ht Heq]. rewrite encode_space in Heq.
  injection Heq as Heq.
  rewrite <- (app_nil_r (enc (encode payload_b64_1))),
          <- (app_nil_r (enc (encode payload_b64_2))) in Heq.
  apply enc_app_inj in Heq as [Hp _].
  split; by apply encode_inj.
Qed.

Lemma dsse_pae_inj_witness :
  PAYLOAD_TYPE = PAYLOAD_TYPE ∧ Demo.payload_sbom = Demo.payload_sbom.
Proof.
  apply (dsse_pae_inj PAYLOAD_TYPE Demo.payload_sbom PAYLOAD_TYPE Demo.payload_sbom).
  reflexivity.
Defined.


(** ** The trust store index *)

Lemma trust_store_keys_records (trust_store : TrustStore) :
  trust_store_keys trust_store = foldl add_key ∅ (key_records trust_store).
Proof.
  unfold trust_store_keys, key_records.
  generalize (∅ : gmap string string).
  induction (default [] (ts_keys trust_store)) as [|[role records] roles IH];
    intros keys; [done|].
  simpl. by rewrite foldl_app, IH.
Qed.

Lemma add_key_lookup (keys : gmap string string) (record : KeyRecord) (k : string) :
  add_key keys record !! k
    = match key_publicKey record with
      | Some pub_key =>
        if decide (key_id record = Some k ∧ k ≠ "") then Some pub_key else keys !! k
      | None => keys !! k
      end.
Proof.
  unfold add_key.
  destruct (key_publicKey record) as [pk|]; [|by destruct (key_id record)].
  destruct (key_id record) as [k'|]; [|by rewrite decide_False by naive_solver].
  destruct (truthy (Some k')) eqn:Hk'.
  - apply truthy_Some in Hk'. destruct (decide (k' = k)) as [->|Hne].
    + by rewrite lookup_insert_eq, decide_True.
    + rewrite lookup_insert_ne by done. by rewrite decide_False by naive_solver.
  - rewrite decide_False; [done|]. intros [[= ->] Hk]. apply truthy_Some in Hk. congruence.
Qed.

(** The index built from a list of records: the last usable record of an id
    decides its key. *)
Lemma foldl_add_key_lookup (records : list KeyRecord) (k pub_key : string) :
  foldl add_key ∅ records !! k = Some pub_key ↔
  ∃ i record,
    records !! i = Some record ∧
    usable_key record k pub_key ∧
    ∀ j later, (i < j)%nat → records !! j = Some later →
               key_id later = Some k → key_publicKey later = None.
Proof.
  induction records as [|record records IH] using rev_ind.
  - simpl. rewrite lookup_empty. split; [done|]. by intros (i & r & ? & _).
  - rewrite foldl_snoc, add_key_lookup.
    destruct (key_publicKey record) as [pk|] eqn:Hpk.
    + case_decide as Hk.
      * destruct Hk as [Hid Hne]. split.
        -- intros [= <-]. exists (length records), record.
           split; [by rewrite lookup_app_r, Nat.sub_diag by lia|].
           split; [done|]. intros j later Hlt Hj.
           apply lookup_lt_Some in Hj. rewrite length_app in Hj. simpl in Hj. lia.
        -- intros (i & r & Hi & (_ & _ & Hr) & Hlast).
           destruct (decide (i = length records)) as [->|Hi'].
           ++ rewrite lookup_app_r, Nat.sub_diag in Hi by lia.
              injection Hi as <-. congruence.
           ++ assert (i < length records)%nat as Hlt.
              { apply lookup_lt_Some in Hi. rewrite length_app in Hi. simpl in Hi. lia. }
              specialize (Hlast (length records) record Hlt).
              rewrite lookup_app_r, Nat.sub_diag in Hlast by lia.
              specialize (Hlast eq_refl Hid). congruence.
      * rewrite IH. split.
        -- intros (i & r & Hi & Hr & Hlast). exists i, r.
           split; [by apply lookup_app_l_Some|]. split; [done|].
           intros j later Hlt Hj Hid.
           destruct (decide (j < length records)%nat) as [Hj'|Hj'].
           ++ rewrite lookup_app_l in Hj by done. eauto.
           ++ rewrite lookup_app_r in Hj by lia.
              destruct (j - length records)%nat; [|by destruct n].
              injection Hj as <-. destruct Hr as (_ & Hne & _). naive_solver.
        -- intros (i & r & Hi & Hr & Hlast).
           assert (i < length records)%nat as Hlt.
           { destruct (decide (i = length records)) as [->|Hi'].
             - rewrite lookup_app_r, Nat.sub_diag in Hi by lia.
               injection Hi as <-. destruct Hr as (? & ? & _). naive_solver.
             - apply lookup_lt_Some in Hi. rewrite length_app in Hi. simpl in Hi. lia. }
           rewrite lookup_app_l in Hi by done. exists i, r.
           split; [done|]. split; [done|]. intros j later Hj Hjl.
           apply (Hlast j later Hj). by apply lookup_app_l_Some.
    + rewrite IH. split.
      * intros (i & r & Hi & Hr & Hlast). exists i, r.
        split; [by apply lookup_app_l_Some|]. split; [done|].
        intros j later Hlt Hj Hid.
        destruct (decide (j < length records)%nat) as [Hj'|Hj'].
        -- rewrite lookup_app_l in Hj by done. eauto.
        -- rewrite lookup_app_r in Hj by lia.
           destruct (j - length records)%nat; [|by destruct n].
           by injection Hj as <-.
      * intros (i & r & Hi & Hr & Hlast).
        assert (i < length records)%nat as Hlt.
        { destruct (decide (i = length records)) as [->|Hi'].
          - rewrite lookup_app_r, Nat.sub_diag in Hi by lia.
            injection Hi as <-. destruct Hr as (_ & _ & ?). congruence.
          - apply lookup_lt_Some in Hi. rewrite length_app in Hi. simpl in Hi. lia. }
        rewrite lookup_app_l in Hi by done. exists i, r.
        split; [done|]. split; [done|]. intros j later Hj Hjl.
        apply (Hlast j later Hj). by apply lookup_app_l_Some.
Qed.

(** X2. The index maps an id to a public key exactly when that key is the
    one of the last record, in the order of the roles and of their lists,
    that carries this id, non-empty, together with a public key: a later
    record overrides an earlier one, and records without id, with an empty
    id or without public key are passed over. *)
Theorem trust_store_keys_lookup (trust_store : TrustStore) (k pub_key : string) :
  trust_store_keys trust_store !! k = Some pub_key ↔
  ∃ i record,
    key_records trust_store !! i = Some record ∧
    usable_key record k pub_key ∧
    ∀ j later, (i < j)%nat → key_records trust_store !! j = Some later →
               key_id later = Some k → key_publicKey later = None.
Proof. rewrite trust_store_keys_records. apply foldl_add_key_lookup. Qed.

Lemma trust_store_keys_is_Some (trust_store : TrustStore) (k : string) :
  is_Some (trust_store_keys trust_store !! k) ↔
  k ≠ "" ∧
  ∃ record, record ∈ key_records trust_store ∧
            key_id record = Some k ∧ is_Some (key_publicKey record).
Proof.
  split.
  - rewrite trust_store_keys_records.
    intros [pk (i & r & Hi & (Hid & Hne & Hpk) & _)%foldl_add_key_lookup].
    split; [done|]. exists r. split; [by eapply list_elem_of_lookup_2|]. eauto.
  - intros (Hne & r & Hr & Hid & Hpk).
    rewrite trust_store_keys_records.
    induction (key_records trust_store) as [|record records IH] using rev_ind;
      [by apply elem_of_nil in Hr|].
    rewrite foldl_snoc, add_key_lookup.
    apply elem_of_app in Hr as [Hr|Hr%list_elem_of_singleton].
    + destruct (key_publicKey record); [case_decide|]; eauto.
    + subst record. destruct Hpk as [pk ->]. rewrite decide_True by done. eauto.
Qed.

(** X3. An id is resolvable in the index exactly when it is not empty and
    some record of the trust store carries it together with a public key; in
    particular the empty string is never resolvable, and neither is the id
    of a record that has no public key unless another record supplies one. *)
Theorem trust_store_keys_dom (trust_store : TrustStore) (k : string) :
  is_Some (trust_store_keys trust_store !! k) ↔
  k ≠ "" ∧
  ∃ record, record ∈ key_records trust_store ∧
            key_id record = Some k ∧ is_Some (key_publicKey record).
Proof. apply trust_store_keys_is_Some. Qed.

(** In the store of the examples [k9] has no public key and the record of
    [pub_k1] has no id: neither makes [k9] resolvable. *)
Example trust_store_keys_example :
  dom (trust_store_keys Demo.store) = {[ "k1"; "k2"; "k3"; "k4" ]}.
Proof. vm_compute. reflexivity. Qed.

(** ** Admission *)

Lemma length_sorted (s : gset string) : length (sorted s) = size s.
Proof. unfold sorted. by rewrite merge_sort_Permutation. Qed.


(** X5. The [logIds] of a report are sorted, without repetition, exactly the
    [logId] values of the bundle, all of them keys of the [logs] of the
    trust store, and at least as many as the quorum of the policy. *)
Theorem report_log_ids `{RT : Runtime} (bundle : Bundle) (policy : Policy)
    (trust_store : TrustStore) (image_digest : string) (report : Report) :
  verify_policy bundle policy trust_store image_digest = Ok report →
  Sorted String.le (logIds report) ∧
  NoDup (logIds report) ∧
  (∀ log_id, log_id ∈ logIds report ↔ log_id ∈ log_ids_of bundle) ∧
  Forall (λ log_id, recognized_log trust_store log_id = true) (logIds report) ∧
  (default 1 (policy_logQuorum policy) ≤ Z.of_nat (length (logIds report)))%Z ∧
  (1 ≤ length (logIds report))%nat.
Proof.
  intros ((_ & _ & Hsanity & Hids & Hq & Hrec) & _ & _ & _ & l & _ & ->)%verify_policy_Ok.
  simpl. split; [apply sorted_Sorted|]. split; [apply sorted_NoDup|].
  assert (∀ log_id, log_id ∈ sorted (list_to_set (log_ids_of bundle))
                    ↔ log_id ∈ log_ids_of bundle) as Hin
    by (intros x; by rewrite elem_of_sorted, elem_of_list_to_set).
  split; [done|]. split.
  { rewrite Forall_forall in Hrec |- *. intros x Hx. by apply Hrec, Hin. }
  rewrite length_sorted, size_list_to_set_distinct. split; [done|].
  apply sanity_check_bundle_Ok in Hsanity as (_ & _ & _ & entry & entries & Hentries).
  rewrite Hentries in Hids. apply Forall_cons in Hids as [[id Hid] _].
  assert (id ∈ remove_dups (log_ids_of bundle)) as Hmem.
  { apply elem_of_remove_dups. unfold log_ids_of. rewrite Hentries. simpl.
    rewrite Hid. set_solver. }
  destruct (remove_dups (log_ids_of bundle)); [by apply elem_of_nil in Hmem|].
  simpl. lia.
Qed.

Lemma report_log_ids_witness :
  Sorted String.le ["log-a"; "log-b"] ∧
  NoDup ["log-a"; "log-b"] ∧
  (∀ log_id, log_id ∈ ["log-a"; "log-b"]
             ↔ log_id ∈ log_ids_of Samples.bundle_two_logs) ∧
  Forall (λ log_id, recognized_log Demo.store log_id = true) ["log-a"; "log-b"] ∧
  (default 1 (policy_logQuorum Demo.policy_quorum2)
     ≤ Z.of_nat (length ["log-a"; "log-b"]))%Z ∧
  (1 ≤ length ["log-a"; "log-b"])%nat.
Proof.
  apply (report_log_ids (RT := Demo.demo_runtime) Samples.bundle_two_logs
           Demo.policy_quorum2 Demo.store Demo.image_ok
           (mkReport [Some "provenance"] ["k1"] ["log-a"; "log-b"])).
  vm_compute. reflexivity.
Defined.



Lemma elem_of_observed_predicates `{RT : Runtime} (atts : list Attestation)
    (x : option string) :
  x ∈ observed_predicates (statements_of atts) ↔
  ∃ a statement, a ∈ atts ∧ statement_of a = Some statement ∧
                 st_predicateType statement = x.
Proof.
  unfold observed_predicates, statements_of.
  rewrite elem_of_list_to_set, list_elem_of_fmap.
  setoid_rewrite list_elem_of_omap. naive_solver.
Qed.

(** X6. The [predicates] of a report are exactly the predicate types of the
    statements of the attestations of the bundle ([None] for a statement
    without [predicateType]); they include every required predicate; and a
    report that lists [None] lists nothing else. *)
Theorem report_predicates `{RT : Runtime} (bundle : Bundle) (policy : Policy)
    (trust_store : TrustStore) (image_digest : string) (report : Report) :
  verify_policy bundle policy trust_store image_digest = Ok report →
  (∀ x, x ∈ predicates report ↔
        ∃ a statement, a ∈ attestations_of bundle ∧
                       statement_of a = Some statement ∧
                       st_predicateType statement = x) ∧
  (∀ p, p ∈ required_predicates_of policy → Some p ∈ predicates report) ∧
  (None ∈ predicates report → predicates report = [None]).
Proof.
  intros (_ & _ & _ & Hreq & l & Hl & ->)%verify_policy_Ok. simpl.
  pose proof (sorted_opt_Ok _ _ Hl) as Hin. split; [|split].
  - intros x. by rewrite Hin, elem_of_observed_predicates.
  - intros p Hp. by apply Hin, Hreq.
  - intros Hnone%Hin. unfold sorted_opt in Hl.
    rewrite decide_True in Hl by done. case_decide; [|done]. by injection Hl as <-.
Qed.

Lemma report_predicates_witness :
  (∀ x, x ∈ [Some "provenance"] ↔
        ∃ a statement, a ∈ attestations_of Demo.bundle_ok ∧
                       statement_of (RT := Demo.demo_runtime) a = Some statement ∧
                       st_predicateType statement = x) ∧
  (∀ p, p ∈ required_predicates_of Demo.policy_k1 → Some p ∈ [Some "provenance"]) ∧
  (None ∈ [Some "provenance"] → [Some "provenance"] = [None]).
Proof.
  apply (report_predicates (RT := Demo.demo_runtime) Demo.bundle_ok Demo.policy_k1
           Demo.store Demo.image_ok (mkReport [Some "provenance"] ["k1"] ["log-a"])).
  vm_compute. reflexivity.
Defined.

(** X7. For every attestation of an admitted bundle the report names a
    signer of that attestation that the policy allows and the trust store
    resolves; [signers] is never empty. *)
Theorem report_names_allowed_signer `{RT : Runtime} (bundle : Bundle)
    (policy : Policy) (trust_store : TrustStore) (image_digest : string)
    (report : Report) :
  verify_policy bundle policy trust_store image_digest = Ok report →
  (∀ a, a ∈ attestations_of bundle →
     ∃ s k, s ∈ signatures_of a ∧ sig_keyid s = Some k ∧
            k ∈ signers report ∧
            k ∈ allowed_signers_of policy ∧
            is_Some (trust_store_keys trust_store !! k)) ∧
  signers report ≠ [].
Proof.
  intros ((_ & _ & Hsanity & _) & Hvalid & _ & _ & l & _ & ->)%verify_policy_Ok.
  simpl.
  assert (∀ a, a ∈ attestations_of bundle →
     ∃ s k, s ∈ signatures_of a ∧ sig_keyid s = Some k ∧
            k ∈ sorted (observed_signers (allowed_signers_of policy)
                          (trust_store_keys trust_store) (attestations_of bundle)) ∧
            k ∈ allowed_signers_of policy ∧
            is_Some (trust_store_keys trust_store !! k)) as Hall.
  { intros a Ha. rewrite Forall_forall in Hvalid. destruct (Hvalid a Ha) as [_ Hsv].
    unfold signer_valid in Hsv.
    destruct (first_match _ _ (signatures_of a)) as [[i s]|] eqn:Hfind; [|done].
    pose proof Hfind as (Hi & Har & _)%list_find_Some.
    unfold allowed_and_resolvable in Har.
    destruct (sig_keyid s) as [k|] eqn:Hk; [|done]. destruct Har as [Hallowed Hres].
    exists s, k. split; [by eapply list_elem_of_lookup_2|]. split; [done|].
    split; [|done]. apply elem_of_sorted. unfold observed_signers.
    apply elem_of_list_to_set, list_elem_of_bind. exists a. split; [|done].
    apply elem_of_keyids. split; [by apply trust_store_keys_is_Some in Hres as [? _]|].
    exists s. split; [|done]. unfold scanned. rewrite Hfind.
    apply elem_of_take. exists i. split; [done|lia]. }
  split; [done|].
  apply sanity_check_bundle_Ok in Hsanity as (_ & _ & (a & atts & Hatts) & _).
  destruct (Hall a) as (s & k & _ & _ & Hk & _).
  { unfold attestations_of. rewrite Hatts. set_solver. }
  intros Hnil. rewrite Hnil in Hk. by apply elem_of_nil in Hk.
Qed.

Lemma report_names_allowed_signer_witness :
  (∀ a, a ∈ attestations_of Demo.bundle_signers →
     ∃ s k, s ∈ signatures_of a ∧ sig_keyid s = Some k ∧
            k ∈ ["k1"; "zz"] ∧
            k ∈ allowed_signers_of Demo.policy_k1k2 ∧
            is_Some (trust_store_keys Demo.store !! k)) ∧
  ["k1"; "zz"] ≠ [].
Proof.
  apply (report_names_allowed_signer (RT := Demo.demo_runtime) Demo.bundle_signers
           Demo.policy_k1k2 Demo.store Demo.image_ok
           (mkReport [Some "provenance"] ["k1"; "zz"] ["log-a"])).
  vm_compute. reflexivity.
Defined.

(** ** Denials and other exceptions *)

Lemma check_log_entries_Raise_id `{RT : Runtime} (bundle : Bundle) trust_store
    (log_quorum : Z) message error_id details :
  check_log_entries bundle trust_store log_quorum
    = Raise (GateError message error_id details) →
  error_id = "ERR_POLICY_DENIED".
Proof.
  unfold check_log_entries.
  destruct (bundle_logEntries bundle) as [| |entries]; simpl field_iter;
    cbn [mbind result_bind]; [|done|].
  - simpl. case_match; [by intros [= <- <- <-]|].
    destruct (check_logs _ _) as [[]|e'] eqn:Hlogs; [done|]. intros [= ->].
    by apply check_logs_Raise in Hlogs as (? & ? & ? & _ & _ & _ & [= -> -> ->]).
  - destruct (mapM _ entries) as [ids|e'] eqn:Hmap; cbn [mbind result_bind].
    + case_match; [by intros [= <- <- <-]|].
      destruct (check_logs _ _) as [[]|e''] eqn:Hlogs; [done|]. intros [= ->].
      by apply check_logs_Raise in Hlogs as (? & ? & ? & _ & _ & _ & [= -> -> ->]).
    + intros [= ->]. by apply mapM_logId_Raise in Hmap.
Qed.

(** X8. Every [GateError] that leaves [verify_policy] carries the identifier
    [ERR_POLICY_DENIED] and one of nine messages; the script raises no other
    error identifier. *)
Theorem gate_errors_are_policy_denials `{RT : Runtime} (bundle : Bundle)
    (policy : Policy) (trust_store : TrustStore) (image_digest : string)
    (message error_id : string) (details : pydict) :
  verify_policy bundle policy trust_store image_digest
    = Raise (GateError message error_id details) →
  error_id = "ERR_POLICY_DENIED" ∧
  message ∈ ["invalid mediaType"; "unsupported bundle version";
             "attestations required"; "logEntries required";
             "log quorum not satisfied"; "unknown log operator";
             "no valid signature for allowed signer";
             "subject digest mismatch"; "missing required predicates"].
Proof.
  intros Hraise.
  assert (error_id = "ERR_POLICY_DENIED") as ->.
  { unfold verify_policy in Hraise.
    destruct (policy_requiredPredicates policy); [|done].
    destruct (policy_allowedSigners policy); [|done].
    cbn [subscript mbind result_bind] in Hraise.
    destruct (sanity_check_bundle bundle) as [[]|e] eqn:Hsanity.
    2:{ injection Hraise as ->. by apply sanity_check_bundle_Raise in Hsanity as [[= ->] _]. }
    cbn [mbind result_bind] in Hraise.
    destruct (check_log_entries _ _ _) as [s|e] eqn:Hlogs.
    2:{ injection Hraise as ->. by apply check_log_entries_Raise_id in Hlogs. }
    cbn [mbind result_bind] in Hraise.
    destruct (bundle_attestations bundle) as [| |atts]; simpl field_iter in Hraise;
      cbn [mbind result_bind] in Hraise; [|done|].
    - simpl in Hraise.
      by apply final_checks_Raise in Hraise
        as [[_ [= -> -> ->]]|[(_ & _ & [= -> -> ->])|[_ ?]]].
    - destruct (process_attestations _ _ _ _ _) as [acc|e] eqn:Hloop.
      2:{ injection Hraise as ->.
          apply process_attestations_Raise in Hloop as (? & ? & ? & ? & _ & _ & Ha).
          by apply process_attestation_Raise in Ha as [[? _]|(_ & _ & [= -> -> ->])]. }
      cbn [mbind result_bind] in Hraise.
      by apply final_checks_Raise in Hraise
        as [[_ [= -> -> ->]]|[(_ & _ & [= -> -> ->])|[_ ?]]]. }
  split; [done|].
  apply verify_policy_Raise in Hraise
    as [[_ Hmsg]|[(pre & a & post & _ & Ha)|(_ & _ & Hfinal)]].
  - simpl in Hmsg. set_unfold in Hmsg. set_unfold. naive_solver.
  - apply process_attestation_Raise in Ha as [[? _]|(_ & _ & [= -> _])]; [done|].
    set_solver.
  - apply final_checks_Raise in Hfinal
      as [[_ [= -> _]]|[(_ & _ & [= -> _])|[_ ?]]]; [set_solver..|done].
Qed.

Lemma gate_errors_are_policy_denials_witness :
  "ERR_POLICY_DENIED" = "ERR_POLICY_DENIED" ∧
  "unknown log operator"
    ∈ ["invalid mediaType"; "unsupported bundle version";
       "attestations required"; "logEntries required";
       "log quorum not satisfied"; "unknown log operator";
       "no valid signature for allowed signer";
       "subject digest mismatch"; "missing required predicates"].
Proof.
  apply (gate_errors_are_policy_denials (RT := Demo.demo_runtime)
           Demo.bundle_unknown_log Demo.policy_k1 Demo.store Demo.image_ok
           "unknown log operator" "ERR_POLICY_DENIED" [("logId", VStr "log-x")]).
  vm_compute. reflexivity.
Defined.

(** X9. What is looked at first.  A policy without [requiredPredicates], or
    with it but without [allowedSigners], ends the evaluation with the
    [KeyError] of that key before the bundle is looked at; with both lists
    present a failure of the validator is the result, whatever the trust
    store and the log entries; and past the validator a log entry without
    [logId] ends the evaluation with [KeyError], before the quorum is
    counted. *)
Theorem checks_before_the_quorum `{RT : Runtime} (bundle : Bundle) (policy : Policy)
    (trust_store : TrustStore) (image_digest : string) :
  (policy_requiredPredicates policy = None →
   verify_policy bundle policy trust_store image_digest
     = Raise (KeyError "requiredPredicates")) ∧
  (is_Some (policy_requiredPredicates policy) →
   policy_allowedSigners policy = None →
   verify_policy bundle policy trust_store image_digest
     = Raise (KeyError "allowedSigners")) ∧
  (is_Some (policy_requiredPredicates policy) →
   is_Some (policy_allowedSigners policy) →
   ∀ e, sanity_check_bundle bundle = Raise e →
        verify_policy bundle policy trust_store image_digest = Raise e) ∧
  (is_Some (policy_requiredPredicates policy) →
   is_Some (policy_allowedSigners policy) →
   sanity_check_bundle bundle = Ok () →
   Exists (λ entry, entry_logId entry = None) (items (bundle_logEntries bundle)) →
   verify_policy bundle policy trust_store image_digest = Raise (KeyError "logId")).
Proof.
  unfold verify_policy. split; [|split; [|split]].
  - by intros ->.
  - by intros [required ->] ->.
  - by intros [required ->] [allowed ->] e ->.
  - intros [required ->] [allowed ->] Hsanity Hex. rewrite Hsanity.
    cbn [subscript mbind result_bind]. unfold check_log_entries.
    apply sanity_check_bundle_Ok in Hsanity as (_ & _ & _ & entry & entries & Hentries).
    rewrite Hentries in Hex |- *. simpl field_iter. simpl items in Hex.
    cbn [mbind result_bind].
    destruct (mapM _ (entry :: entries)) as [ids|e] eqn:Hmap.
    + apply mapM_logId in Hmap as [Hall _]. apply Exists_exists in Hex as (x & Hx & Hnone).
      rewrite Forall_forall in Hall. destruct (Hall x Hx) as [? ?]. congruence.
    + by apply mapM_logId_Raise in Hmap as ->.
Qed.

Lemma checks_before_the_quorum_witness :
  verify_policy (RT := Demo.demo_runtime)
      Samples.bundle_no_log_id Demo.policy_quorum2 Demo.store Demo.image_ok
    = Raise (KeyError "logId").
Proof.
  apply (checks_before_the_quorum (RT := Demo.demo_runtime)
           Samples.bundle_no_log_id Demo.policy_quorum2 Demo.store Demo.image_ok).
  - by eexists.
  - by eexists.
  - reflexivity.
  - apply Exists_cons_tl, Exists_cons_hd. reflexivity.
Defined.

(** ** Subjects without digest *)

Lemma process_attestations_image_irrelevant `{RT : Runtime} allowed_signers keys
    (image1 image2 : string) (atts : list Attestation) (acc : Acc) :
  (∀ a statement, a ∈ atts → statement_of a = Some statement →
                  carried_digests statement = []) →
  process_attestations allowed_signers keys image1 atts acc
    = process_attestations allowed_signers keys image2 atts acc.
Proof.
  revert acc. induction atts as [|a atts IH]; intros acc Hno; [done|].
  simpl.
  assert (process_attestation allowed_signers keys image1 acc a
          = process_attestation allowed_signers keys image2 acc a) as ->.
  { destruct (statement_of a) as [st|] eqn:Hst.
    - rewrite !(process_attestation_decoded _ _ _ _ _ _ Hst).
      unfold mismatched. rewrite (Hno a st); [done|set_solver|done].
    - unfold process_attestation. unfold statement_of in Hst.
      destruct (decode_statement a) as [[|st]|e]; done. }
  destruct (process_attestation _ _ image2 acc a); simpl; [|done].
  apply IH. intros a' st Ha'. apply Hno. set_solver.
Qed.

(** X10. When no statement of the bundle carries a non-empty sha256 digest
    (subjects absent, without [digest], without [sha256] or with an empty
    one), the result of the evaluation does not depend on the image digest:
    such a bundle is bound to no image. *)
Theorem image_digest_irrelevant_without_digests `{RT : Runtime} (bundle : Bundle)
    (policy : Policy) (trust_store : TrustStore) (image1 image2 : string) :
  (∀ a statement, a ∈ attestations_of bundle → statement_of a = Some statement →
                  carried_digests statement = []) →
  verify_policy bundle policy trust_store image1
    = verify_policy bundle policy trust_store image2.
Proof.
  intros Hno. unfold verify_policy.
  destruct (policy_requiredPredicates policy) as [required|]; [|done].
  destruct (policy_allowedSigners policy) as [allowed|]; [|done].
  cbn [subscript mbind result_bind].
  destruct (sanity_check_bundle bundle) as [[]|e]; [|done]. cbn [mbind result_bind].
  destruct (check_log_entries _ _ _) as [log_ids|e]; [|done]. cbn [mbind result_bind].
  unfold attestations_of in Hno.
  destruct (bundle_attestations bundle) as [| |atts]; simpl in *; [done..|].
  rewrite (process_attestations_image_irrelevant _ _ image1 image2 atts _ Hno).
  destruct (process_attestations _ _ image2 atts _) as [acc|e] eqn:Hloop; [|done].
  cbn [mbind result_bind].
  apply process_attestations_Ok in Hloop as (sts & Hsts & _ & ->).
  assert (observed_mismatches image2 sts = []) as Hnil.
  { unfold observed_mismatches. clear -Hsts Hno.
    induction Hsts as [|a st atts sts Hst _ IH]; [done|]. simpl.
    unfold mismatched at 1. rewrite (Hno a st); [|set_solver|done]. simpl.
    apply IH. intros a' st' Ha'. apply Hno. set_solver. }
  unfold final_checks. simpl. rewrite Hnil. by rewrite bool_decide_true.
Qed.

(** The statement of [Samples.bundle_untyped] has an empty digest: the bundle
    is admitted for any image. *)
Lemma image_digest_irrelevant_without_digests_witness :
  verify_policy (RT := Samples.lenient_runtime)
      Samples.bundle_untyped Samples.policy_none Demo.store "sha256:aa11"
  = verify_policy (RT := Samples.lenient_runtime)
      Samples.bundle_untyped Samples.policy_none Demo.store "sha256:ffff".
Proof.
  apply (image_digest_irrelevant_without_digests (RT := Samples.lenient_runtime)).
  intros a st Ha Hst. vm_compute in Ha.
  apply list_elem_of_singleton in Ha as ->. vm_compute in Hst.
  injection Hst as <-. reflexivity.
Defined.

Example unbound_bundle_admitted :
  verify_policy (RT := Samples.lenient_runtime)
      Samples.bundle_untyped Samples.policy_none Demo.store "sha256:ffff"
    = Ok (mkReport [None] ["k1"] ["log-a"]).
Proof. vm_compute. reflexivity. Qed.


(** ** Statements without predicate type *)

(** X11. A bundle that gets through every check, but in which one statement
    has no [predicateType] and another has one, gets no report:
    [sorted] cannot order [None] and a string, and the [TypeError] leaves
    [verify_policy]. *)
Theorem mixed_predicate_types_raise `{RT : Runtime} (bundle : Bundle)
    (policy : Policy) (trust_store : TrustStore) (image_digest : string) :
  passes_log_checks bundle policy trust_store →
  Forall (passes_signer_validation policy trust_store) (attestations_of bundle) →
  observed_mismatches image_digest (statements_of (attestations_of bundle)) = [] →
  (∀ p, p ∈ required_predicates_of policy →
        Some p ∈ observed_predicates (statements_of (attestations_of bundle))) →
  (∃ a statement, a ∈ attestations_of bundle ∧ statement_of a = Some statement ∧
                  st_predicateType statement = None) →
  (∃ a statement p, a ∈ attestations_of bundle ∧ statement_of a = Some statement ∧
                    st_predicateType statement = Some p) →
  verify_policy bundle policy trust_store image_digest = Raise TypeError.
Proof.
  intros Hpass Hvalid Hmis Hreq Hnone Hsome.
  rewrite (verify_policy_reaches_loop _ _ _ _ Hpass).
  assert (process_attestations (allowed_signers_of policy)
            (trust_store_keys trust_store) image_digest (attestations_of bundle)
            (mkAcc ∅ ∅ [])
          = Ok (mkAcc (∅ ∪ observed_predicates (statements_of (attestations_of bundle)))
                      (∅ ∪ observed_signers (allowed_signers_of policy)
                             (trust_store_keys trust_store) (attestations_of bundle))
                      ([] ++ observed_mismatches image_digest
                               (statements_of (attestations_of bundle))))) as ->
    by by apply process_attestations_valid.
  cbn [mbind result_bind]. unfold final_checks. simpl.
  rewrite (left_id_L ∅ (∪)), bool_decide_true by done. simpl.
  rewrite bool_decide_true.
  2:{ apply missing_predicates_empty. intros p Hp. apply Hreq.
      by apply elem_of_list_to_set in Hp. }
  simpl. unfold sorted_opt.
  apply elem_of_observed_predicates in Hnone.
  destruct Hsome as (a & st & p & Ha & Hst & Hp).
  assert (Some p ∈ observed_predicates (statements_of (attestations_of bundle))) as Hin
    by (apply elem_of_observed_predicates; eauto).
  rewrite decide_True by done. rewrite decide_False; [done|].
  intros Hsize. apply size_1_elem_of in Hsize as [x Hx]. apply leibniz_equiv in Hx.
  rewrite Hx in Hnone, Hin. apply elem_of_singleton in Hnone, Hin. congruence.
Qed.

Lemma mixed_predicate_types_raise_witness :
  verify_policy (RT := Samples.lenient_runtime)
      Samples.bundle_mixed Demo.policy_k1 Demo.store Demo.image_ok = Raise TypeError.
Proof.
  apply (mixed_predicate_types_raise (RT := Samples.lenient_runtime)
           Samples.bundle_mixed Demo.policy_k1 Demo.store Demo.image_ok).
  - evaluate_log_checks.
  - evaluate_signer_validation.
  - vm_compute. reflexivity.
  - intros p Hp. vm_compute in Hp. apply list_elem_of_singleton in Hp as ->.
    apply elem_of_observed_predicates.
    exists (Demo.att Demo.payload_provenance [Demo.signed_by "k1" Demo.sig_1]),
           Demo.st_provenance.
    split; [vm_compute; set_solver|]. split; [vm_compute; reflexivity|reflexivity].
  - exists (Demo.att Demo.payload_untyped [Demo.signed_by "k1" Demo.sig_1]),
           Demo.st_untyped.
    split; [vm_compute; set_solver|]. split; [vm_compute; reflexivity|reflexivity].
  - exists (Demo.att Demo.payload_provenance [Demo.signed_by "k1" Demo.sig_1]),
           Demo.st_provenance, "provenance".
    split; [vm_compute; set_solver|]. split; [vm_compute; reflexivity|reflexivity].
Defined.

(** ** Attestations that lack a part *)

(** X12. The first signature from an allowed, resolvable signer has no
    [sig]: the evaluation ends with the [KeyError] of that key, before the
    signature verifier runs. *)
Theorem missing_sig_raises_key_error `{RT : Runtime} (bundle : Bundle)
    (policy : Policy) (trust_store : TrustStore) (image_digest : string)
    (pre : list Attestation) (a : Attestation) (post : list Attestation)
    (i : nat) (s : Signature) :
  reaches bundle policy trust_store pre a post →
  is_Some (statement_of a) →
  first_match (allowed_signers_of policy) (trust_store_keys trust_store)
              (signatures_of a) = Some (i, s) →
  sig_sig s = None →
  verify_policy bundle policy trust_store image_digest = Raise (KeyError "sig").
Proof.
  intros Hreach [st Hst] Hfind Hsig.
  apply (verify_policy_raise_at _ _ _ _ _ _ _ _ Hreach).
  rewrite (process_attestation_decoded _ _ _ _ _ _ Hst).
  cbn [seen_signers seen_predicates missing_subjects].
  destruct (scan_signatures_match _ _ a _
              (observed_signers (allowed_signers_of policy)
                                (trust_store_keys trust_store) pre) _ _ Hfind)
    as (pk & _ & ->).
  apply statement_of_Some in Hst. unfold decode_statement in Hst.
  destruct (att_payload a) as [payload|]; [|done]. by rewrite Hsig.
Qed.

Lemma missing_sig_raises_key_error_witness :
  verify_policy (RT := Demo.demo_runtime)
      Samples.bundle_no_sig Demo.policy_k1 Demo.store Demo.image_ok
    = Raise (KeyError "sig").
Proof.
  apply (missing_sig_raises_key_error (RT := Demo.demo_runtime)
           Samples.bundle_no_sig Demo.policy_k1 Demo.store Demo.image_ok
           [] (mkAttestation (Some Demo.payload_provenance)
                             (Some [mkSignature (Some "k1") None])) []
           0 (mkSignature (Some "k1") None)).
  - split; [evaluate_log_checks|]. split; [reflexivity|constructor].
  - by eexists.
  - vm_compute. reflexivity.
  - reflexivity.
Defined.

(** X13. The payload of an attestation decodes to a JSON value that is not
    an object: the evaluation ends with [AttributeError], raised by
    [statement.get]. *)
Theorem non_object_statement_raises `{RT : Runtime} (bundle : Bundle)
    (policy : Policy) (trust_store : TrustStore) (image_digest : string)
    (pre : list Attestation) (a : Attestation) (post : list Attestation) :
  reaches bundle policy trust_store pre a post →
  decode_statement a = Ok NotAnObject →
  verify_policy bundle policy trust_store image_digest = Raise AttributeError.
Proof.
  intros Hreach Hdecode. apply (verify_policy_raise_at _ _ _ _ _ _ _ _ Hreach).
  unfold process_attestation. by rewrite Hdecode.
Qed.

Lemma non_object_statement_raises_witness :
  verify_policy (RT := Demo.demo_runtime)
      (Demo.bundle_signed Demo.payload_array "k1" Demo.sig_1)
      Demo.policy_k1 Demo.store Demo.image_ok = Raise AttributeError.
Proof.
  apply (non_object_statement_raises (RT := Demo.demo_runtime)
           (Demo.bundle_signed Demo.payload_array "k1" Demo.sig_1)
           Demo.policy_k1 Demo.store Demo.image_ok
           [] (Demo.att Demo.payload_array [Demo.signed_by "k1" Demo.sig_1]) []).
  - split; [evaluate_log_checks|]. split; [reflexivity|constructor].
  - vm_compute. reflexivity.
Defined.




(** ** Signatures after the first match *)

Lemma scan_signatures_tail `{RT : Runtime} allowed_signers keys (a1 a2 : Attestation)
    (sigs after after' : list Signature) (seen : gset string) :
  att_payload a1 = att_payload a2 →
  Exists (allowed_and_resolvable allowed_signers keys) sigs →
  scan_signatures allowed_signers keys a1 (sigs ++ after) seen
    = scan_signatures allowed_signers keys a2 (sigs ++ after') seen.
Proof.
  intros Hpayload. revert seen.
  induction sigs as [|s sigs IH]; intros seen Hex; [by apply Exists_nil in Hex|].
  simpl. destruct (candidate_key allowed_signers keys (sig_keyid s)) as [pk|] eqn:Hpk.
  - by rewrite Hpayload.
  - apply IH. apply Exists_cons in Hex as [Hs|Hex]; [|done].
    by apply candidate_key_None in Hpk.
Qed.

(** X15. First match wins: what follows the first signature from an allowed,
    resolvable signer in the list of an attestation has no effect on the
    result.  Two bundles that differ only there are evaluated alike, whether
    the later signatures are valid, wrong, malformed or absent. *)
Theorem signatures_after_first_match_ignored `{RT : Runtime} (policy : Policy)
    (trust_store : TrustStore) (image_digest : string)
    (media version payload : option string) (entries : field LogEntry)
    (pre post : list Attestation) (sigs after after' : list Signature) :
  Exists (allowed_and_resolvable (allowed_signers_of policy)
                                 (trust_store_keys trust_store)) sigs →
  verify_policy
    (mkBundle media version
       (Items (pre ++ mkAttestation payload (Some (sigs ++ after)) :: post)) entries)
    policy trust_store image_digest
  = verify_policy
      (mkBundle media version
         (Items (pre ++ mkAttestation payload (Some (sigs ++ after')) :: post)) entries)
      policy trust_store image_digest.
Proof.
  intros Hex. unfold verify_policy, allowed_signers_of in *.
  destruct (policy_requiredPredicates policy) as [required|]; [|done].
  destruct (policy_allowedSigners policy) as [allowed|]; [|done].
  cbn [subscript mbind result_bind default] in *.
  assert (∀ atts atts' : list Attestation,
            atts ≠ [] → atts' ≠ [] →
            sanity_check_bundle (mkBundle media version (Items atts) entries)
            = sanity_check_bundle (mkBundle media version (Items atts') entries))
    as Hsanity.
  { intros [|??] [|??] ??; done. }
  rewrite (Hsanity _ (pre ++ mkAttestation payload (Some (sigs ++ after')) :: post));
    [|by destruct pre..].
  clear Hsanity.
  destruct (sanity_check_bundle _) as [[]|e]; [|done]. cbn [mbind result_bind].
  unfold check_log_entries at 1 2. cbn [bundle_logEntries].
  destruct (mbind _ (field_iter entries)) as [log_ids|e]; [|done].
  cbn [mbind result_bind bundle_attestations field_iter].
  rewrite !process_attestations_app.
  destruct (process_attestations _ _ _ pre _) as [acc|e]; [|done].
  cbn [mbind result_bind process_attestations].
  assert (process_attestation (list_to_set allowed) (trust_store_keys trust_store)
            image_digest acc (mkAttestation payload (Some (sigs ++ after)))
          = process_attestation (list_to_set allowed) (trust_store_keys trust_store)
              image_digest acc (mkAttestation payload (Some (sigs ++ after')))) as ->;
    [|done].
  unfold process_attestation, decode_statement. cbn [att_payload att_signatures default].
  destruct (mbind _ (subscript "payload" payload)) as [v|e]; [|done].
  cbn [mbind result_bind]. destruct (as_object v) as [st|e]; [|done].
  cbn [mbind result_bind].
  by rewrite (scan_signatures_tail _ _ _
                (mkAttestation payload (Some (sigs ++ after'))) sigs after after').
Qed.

(** The right signature of [k2] after the one of [k1] changes nothing,
    whether the signature of [k1] is right or wrong. *)
Lemma signatures_after_first_match_ignored_witness :
  verify_policy (RT := Demo.demo_runtime)
    (mkBundle (Some BUNDLE_MEDIA_TYPE) (Some BUNDLE_VERSION)
       (Items ([] ++ mkAttestation (Some Demo.payload_provenance)
                       (Some ([Demo.signed_by "k1" Demo.sig_bad]
                              ++ [Demo.signed_by "k2" Demo.sig_2])) :: []))
       (Items [mkLogEntry (Some "log-a")]))
    Demo.policy_k1k2 Demo.store Demo.image_ok
  = verify_policy (RT := Demo.demo_runtime)
      (mkBundle (Some BUNDLE_MEDIA_TYPE) (Some BUNDLE_VERSION)
         (Items ([] ++ mkAttestation (Some Demo.payload_provenance)
                         (Some ([Demo.signed_by "k1" Demo.sig_bad] ++ [])) :: []))
         (Items [mkLogEntry (Some "log-a")]))
      Demo.policy_k1k2 Demo.store Demo.image_ok.
Proof.
  apply (signatures_after_first_match_ignored (RT := Demo.demo_runtime)).
  apply Exists_cons_hd. vm_compute. split; [set_solver|by eexists].
Defined.



(** ** The program from the command line *)

(** What [command_verify] leaves behind once [openssl] is there and the three
    documents are loaded. *)
Lemma command_verify_loaded `{RT : Runtime} `{HOST : Cli.Host} (args : Cli.Args)
    (bundle : Bundle) (trust_store : TrustStore) (policy : Policy) :
  Cli.openssl_found = true →
  Cli.load_bundle (Cli.args_bundle args) = Some bundle →
  Cli.load_trust_store (Cli.args_trust_store args) = Some trust_store →
  Cli.load_policy (Cli.args_policy args) = Some policy →
  Cli.command_verify args
  = match verify_policy bundle policy trust_store (Cli.args_image_digest args) with
    | Raise e => ([], Some (Cli.Gate e))
    | Ok report =>
      if Cli.args_json args then ([Cli.Json (Cli.OkDocument report)], None)
      else ([Cli.Text "ok"], None)
    end.
Proof.
  intros Hfound Hbundle Hstore Hpolicy.
  unfold Cli.command_verify, Cli.require_openssl.
  by rewrite Hfound, Hbundle, Hstore, Hpolicy.
Qed.

(** X16. The exit status of the program is 0, 1 or 2.  It is 2 exactly when
    [argparse] rejects the command line.  It is 0 exactly when [argparse]
    was asked for the help, or the command line parses, [openssl] is found,
    the three documents load and [verify_policy] returns a report; then the
    only thing written is what one [print] writes to the standard output,
    the report document under [--json] and [ok] otherwise. *)
Theorem main_exit_status `{RT : Runtime} `{HOST : Cli.Host}
    (parsed : Cli.parse_outcome) :
  (Cli.status (Cli.main parsed) = 0%Z ∨ Cli.status (Cli.main parsed) = 1%Z ∨
   Cli.status (Cli.main parsed) = 2%Z) ∧
  (Cli.status (Cli.main parsed) = 2%Z ↔
   ∃ usage message, parsed = Cli.UsageError usage message) ∧
  (Cli.status (Cli.main parsed) = 0%Z ↔
   (∃ help, parsed = Cli.HelpRequested help) ∨
   ∃ args, parsed = Cli.Parsed args ∧
     Cli.openssl_found = true ∧
     ∃ bundle trust_store policy report,
       Cli.load_bundle (Cli.args_bundle args) = Some bundle ∧
       Cli.load_trust_store (Cli.args_trust_store args) = Some trust_store ∧
       Cli.load_policy (Cli.args_policy args) = Some policy ∧
       verify_policy bundle policy trust_store (Cli.args_image_digest args)
         = Ok report ∧
       Cli.stdout (Cli.main parsed)
         = [if Cli.args_json args then Cli.Json (Cli.OkDocument report)
            else Cli.Text "ok"] ∧
       Cli.stderr (Cli.main parsed) = []).
Proof.
  destruct parsed as [args|help|usage message]; cbn [Cli.main Cli.status].
  2:{ split; [by left|]. split; [by split; [|intros (? & ? & ?)]|].
      split; [left; by eexists|done]. }
  2:{ split; [by right; right|]. split; [split; [eauto|done]|].
      split; [done|]. by intros [[? ?]|(? & ? & _)]. }
  unfold Cli.command_verify, Cli.require_openssl.
  destruct Cli.openssl_found.
  2:{ split; [by right; left|]. split; [by split; [|intros (? & ? & ?)]|].
      split; [done|]. by intros [[? ?]|(? & _ & ? & _)]. }
  destruct (Cli.load_bundle _) as [bundle|] eqn:Hbundle.
  2:{ split; [by right; left|]. split; [by split; [|intros (? & ? & ?)]|].
      split; [done|].
      intros [[? ?]|(? & [= <-] & _ & ? & ? & ? & ? & ? & _)]; [done|congruence]. }
  destruct (Cli.load_trust_store _) as [trust_store|] eqn:Hstore.
  2:{ split; [by right; left|]. split; [by split; [|intros (? & ? & ?)]|].
      split; [done|].
      intros [[? ?]|(? & [= <-] & _ & ? & ? & ? & ? & _ & ? & _)]; [done|congruence]. }
  destruct (Cli.load_policy _) as [policy|] eqn:Hpolicy.
  2:{ split; [by right; left|]. split; [by split; [|intros (? & ? & ?)]|].
      split; [done|].
      intros [[? ?]|(? & [= <-] & _ & ? & ? & ? & ? & _ & _ & ? & _)];
        [done|congruence]. }
  destruct (verify_policy _ _ _ _) as [report|e] eqn:Hrun.
  - split; [by left; destruct (Cli.args_json args)|].
    split; [destruct (Cli.args_json args); (split; [done|by intros (? & ? & ?)])|].
    split; [intros _|by destruct (Cli.args_json args)].
    right. exists args. split; [done|]. split; [done|].
    exists bundle, trust_store, policy, report.
    by destruct (Cli.args_json args).
  - split; [right; left; by destruct e, (Cli.args_json args)|].
    split; [destruct e, (Cli.args_json args); (split; [done|by intros (? & ? & ?)])|].
    split; [by destruct e, (Cli.args_json args)|].
    intros [[? ?]|(? & [= <-] & _ & ? & ? & ? & ? & ? & ? & ? & ? & _)];
      [done|congruence].
Qed.

(** The admission scenario from the command line, with and without [--json],
    and the two ways [argparse] ends the program. *)
Example main_admits :
  Cli.main (RT := Demo.demo_runtime) (HOST := Cli.demo_host)
      (Cli.demo_args "bundle.json" true)
    = Cli.mkProcess
        [Cli.Json (Cli.OkDocument (mkReport [Some "provenance"] ["k1"] ["log-a"]))]
        [] 0 ∧
  Cli.main (RT := Demo.demo_runtime) (HOST := Cli.demo_host)
      (Cli.demo_args "bundle.json" false)
    = Cli.mkProcess [Cli.Text "ok"] [] 0 ∧
  Cli.main (RT := Demo.demo_runtime) (HOST := Cli.demo_host)
      (Cli.HelpRequested "usage: ...")
    = Cli.mkProcess [Cli.Text "usage: ..."] [] 0 ∧
  Cli.main (RT := Demo.demo_runtime) (HOST := Cli.demo_host)
      (Cli.UsageError "usage: ..." "error: ...")
    = Cli.mkProcess [] [Cli.Text "usage: ..."; Cli.Text "error: ..."] 2.
Proof. repeat split; vm_compute; reflexivity. Qed.

(** X17. A denial is rendered once: when [verify_policy] raises a
    [GateError], the program exits with status 1; under [--json] the error
    document with the id, the message and the details of the exception is the
    only thing written to the standard output and the standard error stays
    empty, otherwise the message is the only thing written to the standard
    error and the standard output stays empty. *)
Theorem main_renders_gate_error `{RT : Runtime} `{HOST : Cli.Host} (args : Cli.Args)
    (bundle : Bundle) (trust_store : TrustStore) (policy : Policy)
    (message error_id : string) (details : pydict) :
  Cli.openssl_found = true →
  Cli.load_bundle (Cli.args_bundle args) = Some bundle →
  Cli.load_trust_store (Cli.args_trust_store args) = Some trust_store →
  Cli.load_policy (Cli.args_policy args) = Some policy →
  verify_policy bundle policy trust_store (Cli.args_image_digest args)
    = Raise (GateError message error_id details) →
  Cli.main (Cli.Parsed args)
  = if Cli.args_json args
    then Cli.mkProcess [Cli.Json (Cli.ErrorDocument error_id message details)] [] 1
    else Cli.mkProcess [] [Cli.Text message] 1.
Proof.
  intros Hfound Hbundle Hstore Hpolicy Hrun. unfold Cli.main.
  rewrite (command_verify_loaded args bundle trust_store policy) by done.
  rewrite Hrun. by destruct (Cli.args_json args).
Qed.

(** A bundle signed by a signer the policy does not allow, under [--json]. *)
Lemma main_renders_gate_error_witness :
  Cli.main (RT := Demo.demo_runtime) (HOST := Cli.demo_host)
      (Cli.demo_args "unsigned.json" true)
  = Cli.mkProcess
      [Cli.Json (Cli.ErrorDocument ERR_POLICY_DENIED
                   "no valid signature for allowed signer"
                   [("allowed", VStrs ["k1"]); ("seen", VStrs ["zz"])])]
      [] 1.
Proof.
  apply (main_renders_gate_error (RT := Demo.demo_runtime) (HOST := Cli.demo_host)
           (Cli.mkArgs "unsigned.json" "trust.json" "policy.json" Demo.image_ok true)
           (Demo.bundle_signed Demo.payload_provenance "zz" Demo.sig_1)
           Demo.store Demo.policy_k1);
    vm_compute; reflexivity.
Defined.

(** X18. Only [GateError] is rendered: when [verify_policy] raises any other
    exception, the program writes nothing to the standard output, with or
    without [--json]; the exception leaves [main] uncaught, its traceback is
    the only thing on the standard error and the exit status is 1. *)
Theorem main_other_exception_uncaught `{RT : Runtime} `{HOST : Cli.Host}
    (args : Cli.Args) (bundle : Bundle) (trust_store : TrustStore) (policy : Policy)
    (e : exn) :
  Cli.openssl_found = true →
  Cli.load_bundle (Cli.args_bundle args) = Some bundle →
  Cli.load_trust_store (Cli.args_trust_store args) = Some trust_store →
  Cli.load_policy (Cli.args_policy args) = Some policy →
  verify_policy bundle policy trust_store (Cli.args_image_digest args) = Raise e →
  is_gate_error e = false →
  Cli.main (Cli.Parsed args) = Cli.mkProcess [] [Cli.Traceback (Cli.Gate e)] 1.
Proof.
  intros Hfound Hbundle Hstore Hpolicy Hrun Hother. unfold Cli.main.
  rewrite (command_verify_loaded args bundle trust_store policy) by done.
  rewrite Hrun. by destruct e.
Qed.

(** A bundle whose signature does not verify, under [--json]. *)
Lemma main_other_exception_uncaught_witness :
  Cli.main (RT := Demo.demo_runtime) (HOST := Cli.demo_host)
      (Cli.demo_args "forged.json" true)
  = Cli.mkProcess [] [Cli.Traceback (Cli.Gate CalledProcessError)] 1.
Proof.
  apply (main_other_exception_uncaught (RT := Demo.demo_runtime)
           (HOST := Cli.demo_host)
           (Cli.mkArgs "forged.json" "trust.json" "policy.json" Demo.image_ok true)
           (Demo.bundle_signed Demo.payload_provenance "k1" Demo.sig_bad)
           Demo.store Demo.policy_k1);
    vm_compute; reflexivity.
Defined.
